(** * Meeting Cost Ticker: the meeting ledger of [main.py]

    A shallow embedding of the request handlers of [main.py]
    ([start_meeting], [stop_meeting], [summary]) over an explicit model of
    the two SQL tables, followed by the properties of the ledger.

    Modelling conventions.
    - A [datetime] is its number of microseconds on the naive local time
      line, an integer ([Z]); a [timedelta] is a difference of two of them.
      [datetime.now()] is an argument [now] of each handler.
    - A Python [float] (rates, [total_seconds()], the cost) is an exact
      rational ([Q]): rounding, infinities and NaN are not modelled, and
      equalities between them are stated with [==].
    - A [str] is a [string] whose characters are the code points below 256.
    - The database is the pair of its tables, each a list of rows in
      insertion (rowid) order; a handler is a computation in a database
      session, which records every commit. *)

From Stdlib Require Import ZArith QArith Qround List String Ascii Bool Lia.
From Stdlib Require Import DecimalString.
Import ListNotations.

Local Open Scope Z_scope.

(** ** Python built-ins used by the handlers *)

Module Py.

(** [str.isspace] on one character, for the code points below 256. *)
Definition isspace (c : ascii) : bool :=
  let n := Z.of_nat (nat_of_ascii c) in
  ((9 <=? n) && (n <=? 13)) || ((28 <=? n) && (n <=? 32))
  || (n =? 133) || (n =? 160).

Fixpoint lstrip (s : string) : string :=
  match s with
  | EmptyString => EmptyString
  | String c rest => if isspace c then lstrip rest else s
  end.

(** [rstrip] keeps a character when it is not white space or when something
    is kept after it. *)
Fixpoint rstrip (s : string) : string :=
  match s with
  | EmptyString => EmptyString
  | String c rest =>
      match rstrip rest with
      | EmptyString => if isspace c then EmptyString else String c EmptyString
      | kept => String c kept
      end
  end.

(** [s.strip()] *)
Definition strip (s : string) : string := rstrip (lstrip s).

(** Truth value of a [str]: non-empty. *)
Definition truthy (s : string) : bool :=
  match s with
  | EmptyString => false
  | String _ _ => true
  end.

(** [r >= 0] on a float. *)
Definition ge0 (r : Q) : bool := Qle_bool 0 r.

(** [divmod(x, y)] on floats, for [y > 0]: the floored quotient (as a float)
    and the remainder [x - q*y]. *)
Definition divmod (x y : Q) : Q * Q :=
  let q := inject_Z (Qfloor (x / y)) in
  (q, (x - q * y)%Q).

(** [int(x)] on a float: truncation towards zero. *)
Definition int (x : Q) : Z := Z.quot (Qnum x) (Z.pos (Qden x)).

(** Decimal digits of a natural number, as [str(n)] prints them. *)
Definition digits (n : Z) : string :=
  NilZero.string_of_uint (N.to_uint (Z.to_N n)).

(** [str(z)] for an integer. *)
Definition str_int (z : Z) : string :=
  if z <? 0 then String "-"%char (digits (- z)) else digits z.

(** [format(z, "02d")]: sign first, then zeros up to a total width of 2. *)
Definition format_02d (z : Z) : string :=
  if z <? 0 then String "-"%char (digits (- z))
  else if z <? 10 then String "0"%char (digits z)
  else digits z.

(** [sum(xs)]: starts from 0 and adds from the left. *)
Definition sum (xs : list Q) : Q := fold_left Qplus xs 0%Q.

(** [timedelta.total_seconds()] of a difference in microseconds. *)
Definition total_seconds (us : Z) : Q := us # 1000000.

End Py.

(** ** The tables *)

Module Meeting.
Record t := mk {
  id : Z;
  start_time : Z;
  end_time : option Z;
  is_active : bool
}.
End Meeting.

Module Attendee.
Record t := mk {
  id : Z;
  meeting_id : Z;
  name : string;
  hourly_rate : Q
}.
End Attendee.

Record Store := mkStore {
  meetings : list Meeting.t;
  attendees : list Attendee.t
}.

Definition empty_store : Store := mkStore [] [].

(** An integer primary key is given the largest key of the table plus one. *)
Definition next_id (ids : list Z) : Z := 1 + fold_right Z.max 0 ids.

(** [db.query(Meeting).filter(Meeting.is_active == True).first()] *)
Definition first_active (s : Store) : option Meeting.t :=
  find Meeting.is_active (meetings s).

(** [db.query(Meeting).filter(Meeting.id == meeting_id).first()] *)
Definition get_meeting (meeting_id : Z) (s : Store) : option Meeting.t :=
  find (fun m => Meeting.id m =? meeting_id) (meetings s).

(** [meeting.attendees]: the rows of [attendees] that refer to the meeting. *)
Definition attendees_of (m_id : Z) (s : Store) : list Attendee.t :=
  filter (fun a => Attendee.meeting_id a =? m_id) (attendees s).

(** ** Responses *)

Record SummaryContext := mkSummary {
  ctx_meeting : Meeting.t;
  duration_str : string;
  total_cost : Q;
  attendee_count : nat
}.

Inductive Response :=
| RedirectResponse (url : string) (status_code : Z)
| HTTPException (status_code : Z) (detail : string)
| TemplateResponse (template : string)
| SummaryPage (ctx : SummaryContext).

(** ** Database sessions

    A handler runs in a session: [view] is the database as the session sees
    it (its own pending writes included), [committed] lists, oldest first,
    the states that [db.commit()] made durable during the handler. *)

Record Session := mkSession {
  view : Store;
  committed : list Store
}.

Definition DB (A : Type) : Type := Session -> A * Session.

Definition ret {A} (a : A) : DB A := fun ss => (a, ss).

Definition bind {A B} (c : DB A) (k : A -> DB B) : DB B :=
  fun ss => let (a, ss') := c ss in k a ss'.

Notation "x <- c ;; k" := (bind c (fun x => k))
  (at level 61, c at next level, right associativity).
Notation "c ;;; k" := (bind c (fun _ => k))
  (at level 61, right associativity).

Definition query {A} (f : Store -> A) : DB A := fun ss => (f (view ss), ss).

Definition modify (f : Store -> Store) : DB unit :=
  fun ss => (tt, mkSession (f (view ss)) (committed ss)).

(** [db.commit()] *)
Definition commit : DB unit :=
  fun ss => (tt, mkSession (view ss) (committed ss ++ [view ss])).

Definition open (s : Store) : Session := mkSession s [].

(** The response of a handler started on the durable state [s]. *)
Definition response (h : DB Response) (s : Store) : Response :=
  fst (h (open s)).

(** The commits of a handler started on [s], oldest first. *)
Definition commits (h : DB Response) (s : Store) : list Store :=
  committed (snd (h (open s))).

(** The durable state once the handler has returned and the session is
    closed: the last commit, or [s] when nothing was committed. *)
Definition exec (h : DB Response) (s : Store) : Store :=
  last (commits h s) s.

(** ** [POST /start] *)

Definition valid (n : string) (r : Q) : bool :=
  Py.truthy (Py.strip n) && Py.ge0 r.

(** The loop over [zip(names, rates)] that appends to [valid_entries]. *)
Fixpoint valid_entries_loop (names : list string) (rates : list Q)
    (valid_entries : list (string * Q)) : list (string * Q) :=
  match names, rates with
  | n :: names', r :: rates' =>
      valid_entries_loop names' rates'
        (if valid n r then valid_entries ++ [(n, r)] else valid_entries)
  | _, _ => valid_entries
  end.

(** [db.add(new_meeting)]: the row gets its key here; the handler reads it
    with [db.refresh] after the commit. *)
Definition add_meeting (now : Z) : DB Meeting.t :=
  fun ss =>
    let s := view ss in
    let m := Meeting.mk (next_id (map Meeting.id (meetings s))) now None true in
    (m, mkSession (mkStore (meetings s ++ [m]) (attendees s)) (committed ss)).

Definition add_attendee (m_id : Z) (name : string) (rate : Q) : DB unit :=
  modify (fun s =>
    let a := Attendee.mk (next_id (map Attendee.id (attendees s))) m_id name rate in
    mkStore (meetings s) (attendees s ++ [a])).

Fixpoint add_attendees (m_id : Z) (entries : list (string * Q)) : DB unit :=
  match entries with
  | [] => ret tt
  | (name, rate) :: rest =>
      add_attendee m_id name rate ;;; add_attendees m_id rest
  end.

Definition start_meeting (now : Z) (names : list string) (rates : list Q)
    : DB Response :=
  let valid_entries := valid_entries_loop names rates [] in
  match valid_entries with
  | [] => ret (RedirectResponse "/setup" 303)
  | _ :: _ =>
      new_meeting <- add_meeting now ;;
      commit ;;;
      add_attendees (Meeting.id new_meeting) valid_entries ;;;
      commit ;;;
      ret (RedirectResponse "/dashboard" 303)
  end.

(** ** [GET /setup] *)

Definition setup_page : DB Response :=
  active_meeting <- query first_active ;;
  match active_meeting with
  | Some _ => ret (RedirectResponse "/dashboard" 307)
  | None => ret (TemplateResponse "setup.html")
  end.

(** ** [POST /stop] *)

(** Writing back the attributes of a loaded row [m']: the update goes to the
    rows that carry its primary key. *)
Definition write_back (m' : Meeting.t) (x : Meeting.t) : Meeting.t :=
  if Meeting.id x =? Meeting.id m' then m' else x.

Definition update_meeting (m' : Meeting.t) : DB unit :=
  modify (fun s => mkStore (map (write_back m') (meetings s)) (attendees s)).

(** The row after [meeting.is_active = False] and
    [meeting.end_time = datetime.now()]. *)
Definition stopped (m : Meeting.t) (now : Z) : Meeting.t :=
  Meeting.mk (Meeting.id m) (Meeting.start_time m) (Some now) false.

Definition stop_meeting (now : Z) : DB Response :=
  meeting <- query first_active ;;
  match meeting with
  | Some m =>
      update_meeting (stopped m now) ;;;
      commit ;;;
      ret (RedirectResponse ("/summary/" ++ Py.str_int (Meeting.id m))%string 303)
  | None => ret (RedirectResponse "/" 303)
  end.

(** ** [GET /summary/{meeting_id}] *)

(** [end = meeting.end_time or datetime.now()] *)
Definition end_or_now (m : Meeting.t) (now : Z) : Z :=
  match Meeting.end_time m with
  | Some e => e
  | None => now
  end.

(** [duration_seconds = (end - start).total_seconds()] *)
Definition duration_seconds (m : Meeting.t) (now : Z) : Q :=
  Py.total_seconds (end_or_now m now - Meeting.start_time m).

(** The two [divmod]s and the f-string. *)
Definition format_duration (duration_seconds : Q) : string :=
  let (hours, remainder) := Py.divmod duration_seconds 3600 in
  let (minutes, seconds) := Py.divmod remainder 60 in
  (Py.format_02d (Py.int hours) ++ ":" ++
   Py.format_02d (Py.int minutes) ++ ":" ++
   Py.format_02d (Py.int seconds))%string.

Definition cost (duration_seconds : Q) (rates : list Q) : Q :=
  let total_hourly_rate := Py.sum rates in
  ((duration_seconds / 3600) * total_hourly_rate)%Q.

(** [meeting_id] is a key the database driver can bind, a signed 64-bit
    integer; on a larger one the driver raises before the query is run, and
    this definition says nothing about that case. *)
Definition summary (meeting_id : Z) (now : Z) : DB Response :=
  meeting <- query (get_meeting meeting_id) ;;
  match meeting with
  | None => ret (HTTPException 404 "Meeting not found")
  | Some m =>
      atts <- query (attendees_of (Meeting.id m)) ;;
      let ds := duration_seconds m now in
      ret (SummaryPage
             (mkSummary m
                (format_duration ds)
                (cost ds (map Attendee.hourly_rate atts))
                (List.length atts)))
  end.

(** ** Sequences of requests *)

Inductive Request :=
| Start (now : Z) (names : list string) (rates : list Q)
| Stop (now : Z)
| Summary (meeting_id : Z) (now : Z)
| Setup.

Definition handler (rq : Request) : DB Response :=
  match rq with
  | Start now names rates => start_meeting now names rates
  | Stop now => stop_meeting now
  | Summary meeting_id now => summary meeting_id now
  | Setup => setup_page
  end.

(** The durable state after serving the requests one after the other. *)
Fixpoint serve (rqs : list Request) (s : Store) : Store :=
  match rqs with
  | [] => s
  | rq :: rest => serve rest (exec (handler rq) s)
  end.

(** ** Vocabulary of the specification *)

(** Number of meetings with [is_active] set. *)
Definition active_count (s : Store) : nat :=
  List.length (filter Meeting.is_active (meetings s)).

(** The (name, rate) entries carried by attendee rows. *)
Definition entries_of (rows : list Attendee.t) : list (string * Q) :=
  map (fun a => (Attendee.name a, Attendee.hourly_rate a)) rows.

(** An entry is kept when its trimmed name is non-empty and its rate is at
    least 0. *)
Definition spec_keeps (e : string * Q) : bool :=
  negb (String.eqb (Py.strip (fst e)) EmptyString) && Qle_bool 0 (snd e).

(** The sub-sequence of kept entries, in submission order. *)
Definition spec_valid_entries (entries : list (string * Q))
    : list (string * Q) :=
  filter spec_keeps entries.

(** [end - startTime] in seconds, clamped to be at least 0. *)
Definition spec_duration_seconds (m : Meeting.t) (now : Z) : Q :=
  let d := Py.total_seconds (end_or_now m now - Meeting.start_time m) in
  if Qle_bool 0 d then d else 0%Q.

(** [(durationSeconds / 3600) * (sum of the hourly rates)] *)
Definition spec_total_cost (ds : Q) (rates : list Q) : Q :=
  ((ds / 3600) * fold_right Qplus 0 rates)%Q.

(** A number written with at least two digits. *)
Definition pad2 (z : Z) : string :=
  if z <? 10 then String "0"%char (Py.digits z) else Py.digits z.

(** [HH:MM:SS] with the hours not wrapped and the minutes and seconds taken
    modulo 60. *)
Definition spec_duration_string (ds : Q) : string :=
  (pad2 (Qfloor (ds / 3600)) ++ ":" ++
   pad2 (Qfloor (ds / 60) mod 60) ++ ":" ++
   pad2 (Qfloor ds mod 60))%string.

(** Every attendee row refers to a meeting of the store. *)
Definition foreign_keys_ok (s : Store) : Prop :=
  Forall (fun a => In (Attendee.meeting_id a) (map Meeting.id (meetings s)))
         (attendees s).

(** ** [GET /] *)

Definition root : DB Response :=
  active_meeting <- query first_active ;;
  match active_meeting with
  | Some _ => ret (RedirectResponse "/dashboard" 307)
  | None => ret (RedirectResponse "/setup" 307)
  end.

(** ** [GET /dashboard] *)

(** The context handed to [dashboard.html]. *)
Record DashboardContext := mkDashboard {
  dash_meeting : Meeting.t;
  dash_attendees : list Attendee.t;
  start_time_ts : Q;
  total_hourly_rate : Q
}.

Inductive DashboardResponse :=
| DashboardRedirect (url : string) (status_code : Z)
| DashboardPage (ctx : DashboardContext).

(** [timestamp] stands for [datetime.timestamp()], which depends on the time
    zone of the host. *)
Definition dashboard (timestamp : Z -> Q) : DB DashboardResponse :=
  meeting <- query first_active ;;
  match meeting with
  | None => ret (DashboardRedirect "/" 307)
  | Some m =>
      atts <- query (attendees_of (Meeting.id m)) ;;
      let total_hourly_rate := Py.sum (map Attendee.hourly_rate atts) in
      ret (DashboardPage
             (mkDashboard m atts (timestamp (Meeting.start_time m))
                          total_hourly_rate))
  end.

(** ** What one request can do to the database *)

(** The three shapes of a change of the durable state: nothing, a meeting
    appended with its attendee rows, the first active meeting stopped. *)
Inductive transition (s : Store) : Store -> Prop :=
| tr_none : transition s s
| tr_start (now : Z) (entries : list (string * Q)) (rows : list Attendee.t) :
    let m := Meeting.mk (next_id (map Meeting.id (meetings s))) now None true in
    entries <> [] ->
    spec_valid_entries entries = entries ->
    entries_of rows = entries ->
    Forall (fun a => Attendee.meeting_id a = Meeting.id m) rows ->
    transition s (mkStore (meetings s ++ [m]) (attendees s ++ rows))
| tr_stop (now : Z) (m : Meeting.t) :
    first_active s = Some m ->
    transition s (mkStore (map (write_back (stopped m now)) (meetings s))
                          (attendees s)).

(** Meeting keys are pairwise distinct. *)
Definition unique_ids (s : Store) : Prop :=
  NoDup (map Meeting.id (meetings s)).

(** The keys [1, 2, ..., n]. *)
Definition ids_upto (n : nat) : list Z := map Z.of_nat (seq 1 n).

(** Every character of the string is white space. *)
Fixpoint all_space (s : string) : bool :=
  match s with
  | EmptyString => true
  | String c rest => Py.isspace c && all_space rest
  end.

(** What a row of [meetings] keeps for ever: its key and its start time. *)
Definition birth (m : Meeting.t) : Z * Z :=
  (Meeting.id m, Meeting.start_time m).

(** * Properties *)

(** ** The validity filter *)

Lemma truthy_not_empty (s : string) :
  Py.truthy s = negb (String.eqb s EmptyString).
Proof. destruct s; reflexivity. Qed.

Lemma valid_spec_keeps (n : string) (r : Q) : valid n r = spec_keeps (n, r).
Proof. unfold valid, spec_keeps, Py.ge0. now rewrite truthy_not_empty. Qed.

Lemma valid_entries_loop_acc (names : list string) :
  forall rates acc,
    valid_entries_loop names rates acc =
    acc ++ spec_valid_entries (combine names rates).
Proof.
  induction names as [|n names IH]; intros rates acc; simpl.
  - now rewrite app_nil_r.
  - destruct rates as [|r rates]; simpl.
    + now rewrite app_nil_r.
    + rewrite IH, valid_spec_keeps.
      destruct (spec_keeps (n, r)); [now rewrite <- app_assoc|reflexivity].
Qed.

Lemma valid_entries_loop_filter (names : list string) (rates : list Q) :
  valid_entries_loop names rates [] = spec_valid_entries (combine names rates).
Proof. apply valid_entries_loop_acc. Qed.

(** ** Keys *)

Lemma next_id_above (ids : list Z) (x : Z) : In x ids -> x < next_id ids.
Proof.
  unfold next_id. induction ids as [|y ids IH]; cbn [fold_right In]; [easy|].
  intros [->|Hin]; [lia|]. specialize (IH Hin). lia.
Qed.

Lemma next_id_fresh (ids : list Z) : ~ In (next_id ids) ids.
Proof. intros H. apply next_id_above in H. lia. Qed.

Lemma find_id_absent (l : list Meeting.t) (k : Z) :
  ~ In k (map Meeting.id l) -> find (fun m => Meeting.id m =? k) l = None.
Proof.
  induction l as [|m l IH]; simpl; [easy|]. intros H.
  destruct (Z.eqb_spec (Meeting.id m) k) as [E|E]; [tauto|].
  apply IH. tauto.
Qed.

Lemma find_app_none {A} (f : A -> bool) (l1 l2 : list A) :
  find f l1 = None -> find f (l1 ++ l2) = find f l2.
Proof.
  induction l1 as [|a l1 IH]; simpl; [reflexivity|].
  destruct (f a); [discriminate|exact IH].
Qed.

Lemma attendees_of_absent (rows : list Attendee.t) (k : Z) :
  ~ In k (map Attendee.meeting_id rows) ->
  filter (fun a => Attendee.meeting_id a =? k) rows = [].
Proof.
  induction rows as [|a rows IH]; simpl; [easy|]. intros H.
  destruct (Z.eqb_spec (Attendee.meeting_id a) k) as [E|E]; [tauto|].
  apply IH. tauto.
Qed.

(** ** What [add_attendees] writes *)

Lemma add_attendees_view (m_id : Z) (entries : list (string * Q)) :
  forall ss,
    exists rows,
      add_attendees m_id entries ss =
        (tt, mkSession (mkStore (meetings (view ss)) (attendees (view ss) ++ rows))
                       (committed ss))
      /\ entries_of rows = entries
      /\ Forall (fun a => Attendee.meeting_id a = m_id) rows.
Proof.
  induction entries as [|[n r] entries IH]; intros ss; simpl.
  - exists []. rewrite app_nil_r. destruct ss as [[ms ats] cs]. now repeat split.
  - unfold bind at 1. simpl.
    match goal with |- context [add_attendees _ _ ?ss1] =>
      destruct (IH ss1) as (rows & Hrun & Hent & Hfk) end.
    eexists (_ :: rows). rewrite Hrun. simpl. split; [|split].
    + now rewrite <- app_assoc.
    + simpl. now rewrite Hent.
    + constructor; [reflexivity|assumption].
Qed.

Lemma filter_all {A} (f : A -> bool) (l : list A) :
  Forall (fun a => f a = true) l -> filter f l = l.
Proof.
  induction 1 as [|a l Ha _ IH]; simpl; [reflexivity|]. now rewrite Ha, IH.
Qed.

(** ** Running [start_meeting] *)

Lemma start_meeting_none (now : Z) (names : list string) (rates : list Q)
    (ss : Session) :
  spec_valid_entries (combine names rates) = [] ->
  start_meeting now names rates ss = (RedirectResponse "/setup" 303, ss).
Proof.
  intros H. unfold start_meeting. now rewrite valid_entries_loop_filter, H.
Qed.

Lemma start_meeting_some (now : Z) (names : list string) (rates : list Q)
    (s : Store) (e : string * Q) (es : list (string * Q)) :
  spec_valid_entries (combine names rates) = e :: es ->
  let m := Meeting.mk (next_id (map Meeting.id (meetings s))) now None true in
  exists rows,
    entries_of rows = e :: es
    /\ Forall (fun a => Attendee.meeting_id a = Meeting.id m) rows
    /\ response (start_meeting now names rates) s
       = RedirectResponse "/dashboard" 303
    /\ commits (start_meeting now names rates) s
       = [ mkStore (meetings s ++ [m]) (attendees s);
           mkStore (meetings s ++ [m]) (attendees s ++ rows) ].
Proof.
  intros H m. unfold response, commits, start_meeting.
  rewrite valid_entries_loop_filter, H.
  unfold bind, add_meeting, commit, ret, open.
  cbn [view committed app fst snd Meeting.id].
  match goal with |- context [add_attendees ?i ?l ?ss1] =>
    destruct (add_attendees_view i l ss1) as (rows & Hrun & Hent & Hfk) end.
  exists rows. rewrite Hrun.
  cbn [view committed app fst snd meetings attendees Meeting.id] in *.
  now repeat split.
Qed.

Lemma exec_start_meeting_some (now : Z) (names : list string) (rates : list Q)
    (s c1 c2 : Store) :
  commits (start_meeting now names rates) s = [c1; c2] ->
  exec (start_meeting now names rates) s = c2.
Proof. unfold exec. now intros ->. Qed.

(** ** C2: the attendees of the created meeting *)

(** C2. When [start_meeting] is given names and rates of which at least one
    pair passes the filter, the meeting it creates has for attendees exactly
    the pairs whose stripped name is non-empty and whose rate is at least 0,
    in the order of submission; the other pairs leave no row. *)
Theorem start_meeting_attendees_are_valid_entries
    (now : Z) (names : list string) (rates : list Q) (s : Store) :
  foreign_keys_ok s ->
  spec_valid_entries (combine names rates) <> [] ->
  let s' := exec (start_meeting now names rates) s in
  exists m,
    meetings s' = meetings s ++ [m]
    /\ get_meeting (Meeting.id m) s = None
    /\ get_meeting (Meeting.id m) s' = Some m
    /\ Meeting.start_time m = now
    /\ Meeting.is_active m = true
    /\ Meeting.end_time m = None
    /\ entries_of (attendees_of (Meeting.id m) s')
       = spec_valid_entries (combine names rates).
Proof.
  intros Hfk Hne s'.
  destruct (spec_valid_entries (combine names rates)) as [|e es] eqn:Hv;
    [congruence|].
  destruct (start_meeting_some now names rates s e es Hv)
    as (rows & Hent & Hrows & _ & Hc).
  set (m := Meeting.mk (next_id (map Meeting.id (meetings s))) now None true)
    in *.
  assert (Hs' : s' = mkStore (meetings s ++ [m]) (attendees s ++ rows))
    by (apply (exec_start_meeting_some _ _ _ _ _ _ Hc)).
  assert (Hfresh : ~ In (Meeting.id m) (map Meeting.id (meetings s)))
    by apply next_id_fresh.
  exists m. rewrite Hs'. unfold get_meeting, attendees_of. cbn [meetings attendees].
  repeat split.
  - now apply find_id_absent.
  - rewrite find_app_none by now apply find_id_absent.
    cbn. now rewrite Z.eqb_refl.
  - rewrite filter_app, attendees_of_absent, filter_all; [assumption| |].
    + eapply Forall_impl; [|exact Hrows]. intros a Ha. now apply Z.eqb_eq.
    + intros Hin. apply Hfresh. apply in_map_iff in Hin.
      destruct Hin as (a & Ha & Hin).
      unfold foreign_keys_ok in Hfk. rewrite Forall_forall in Hfk.
      rewrite <- Ha. now apply Hfk.
Qed.

Lemma start_meeting_attendees_are_valid_entries_witness :
  exists m,
    meetings (exec (start_meeting 7 ["ann"; "  "; "bob"; "cy"]%string
                      [50%Q; 10%Q; (-1)%Q])
                   empty_store) = [] ++ [m]
    /\ entries_of
         (attendees_of (Meeting.id m)
            (exec (start_meeting 7 ["ann"; "  "; "bob"; "cy"]%string
                     [50%Q; 10%Q; (-1)%Q])
                  empty_store))
       = [("ann"%string, 50%Q)].
Proof.
  destruct (start_meeting_attendees_are_valid_entries 7
              ["ann"; "  "; "bob"; "cy"]%string [50%Q; 10%Q; (-1)%Q]
              empty_store)
    as (m & Hm & _ & _ & _ & _ & _ & Hent).
  - constructor.
  - vm_compute. discriminate.
  - exists m. split; [exact Hm|exact Hent].
Defined.

(** ** C3: the two commits of [start_meeting] *)

(** C3 (as the code has it). [start_meeting] commits twice. The first commit
    makes the new meeting durable, active and without any attendee; the
    second adds one attendee row per valid entry and nothing else, so that
    once the handler has returned the meeting has all its attendees. *)
Theorem start_meeting_commits_meeting_then_attendees
    (now : Z) (names : list string) (rates : list Q) (s : Store) :
  foreign_keys_ok s ->
  spec_valid_entries (combine names rates) <> [] ->
  exists m c1 c2 rows,
    commits (start_meeting now names rates) s = [c1; c2]
    /\ exec (start_meeting now names rates) s = c2
    /\ meetings c1 = meetings s ++ [m]
    /\ attendees c1 = attendees s
    /\ Meeting.is_active m = true
    /\ attendees_of (Meeting.id m) c1 = []
    /\ meetings c2 = meetings c1
    /\ attendees c2 = attendees c1 ++ rows
    /\ attendees_of (Meeting.id m) c2 = rows
    /\ entries_of rows = spec_valid_entries (combine names rates).
Proof.
  intros Hfk Hne.
  destruct (spec_valid_entries (combine names rates)) as [|e es] eqn:Hv;
    [congruence|].
  destruct (start_meeting_some now names rates s e es Hv)
    as (rows & Hent & Hrows & _ & Hc).
  set (m := Meeting.mk (next_id (map Meeting.id (meetings s))) now None true)
    in *.
  assert (Hold : filter (fun a => Attendee.meeting_id a =? Meeting.id m)
                        (attendees s) = []).
  { apply attendees_of_absent. intros Hin.
    apply (next_id_fresh (map Meeting.id (meetings s))).
    apply in_map_iff in Hin. destruct Hin as (a & Ha & Hin).
    unfold foreign_keys_ok in Hfk. rewrite Forall_forall in Hfk.
    change (next_id (map Meeting.id (meetings s))) with (Meeting.id m).
    rewrite <- Ha. now apply Hfk. }
  exists m, (mkStore (meetings s ++ [m]) (attendees s)),
    (mkStore (meetings s ++ [m]) (attendees s ++ rows)), rows.
  unfold attendees_of. cbn [meetings attendees].
  repeat split; try assumption.
  - now apply (exec_start_meeting_some _ _ _ _ _ _ Hc).
  - rewrite filter_app, Hold, filter_all; [reflexivity|].
    eapply Forall_impl; [|exact Hrows]. intros a Ha. now apply Z.eqb_eq.
Qed.

Lemma start_meeting_commits_meeting_then_attendees_witness :
  exists m c1 c2 rows,
    commits (start_meeting 7 ["ann"; "bob"]%string [50%Q; 0%Q]) empty_store
      = [c1; c2]
    /\ attendees_of (Meeting.id m) c1 = []
    /\ attendees_of (Meeting.id m) c2 = rows
    /\ entries_of rows = [("ann"%string, 50%Q); ("bob"%string, 0%Q)].
Proof.
  destruct (start_meeting_commits_meeting_then_attendees 7
              ["ann"; "bob"]%string [50%Q; 0%Q] empty_store)
    as (m & c1 & c2 & rows & Hc & _ & _ & _ & _ & H1 & _ & _ & H2 & Hent).
  - constructor.
  - vm_compute. discriminate.
  - exists m, c1, c2, rows. repeat split; assumption.
Defined.

(** C3 (as the spec has it) fails: between the two commits of one call the
    database holds meeting 1, active, with no attendee row. *)
Lemma start_meeting_persists_meeting_before_attendees :
  commits (start_meeting 0 ["ann"]%string [50%Q]) empty_store
  = [ mkStore [Meeting.mk 1 0 None true] [];
      mkStore [Meeting.mk 1 0 None true]
              [Attendee.mk 1 1 "ann" 50%Q] ]
  /\ attendees_of 1 (mkStore [Meeting.mk 1 0 None true] []) = []
  /\ get_meeting 1 (mkStore [Meeting.mk 1 0 None true] [])
     = Some (Meeting.mk 1 0 None true).
Proof. repeat split; reflexivity. Qed.

(** ** C8: no valid entry *)

Lemma spec_valid_entries_none (entries : list (string * Q)) :
  Forall (fun e => Py.strip (fst e) = EmptyString \/ (snd e < 0)%Q) entries ->
  spec_valid_entries entries = [].
Proof.
  induction 1 as [|e entries He _ IH]; simpl; [reflexivity|].
  assert (Hk : spec_keeps e = false).
  { unfold spec_keeps. destruct He as [-> | Hneg]; [reflexivity|].
    destruct (Qle_bool 0 (snd e)) eqn:Hle; [|now rewrite andb_false_r].
    apply Qle_bool_iff in Hle. exfalso. now apply (Qlt_not_le _ _ Hneg). }
  now rewrite Hk.
Qed.

(** C8. When every submitted pair has a blank name (empty once stripped) or
    a negative rate, [start_meeting] answers with the redirect to [/setup],
    commits nothing and leaves the database as it was: no meeting and no
    attendee is created. *)
Theorem start_meeting_no_valid_attendees
    (now : Z) (names : list string) (rates : list Q) (s : Store) :
  Forall (fun e => Py.strip (fst e) = EmptyString \/ (snd e < 0)%Q)
         (combine names rates) ->
  response (start_meeting now names rates) s = RedirectResponse "/setup" 303
  /\ commits (start_meeting now names rates) s = []
  /\ view (snd (start_meeting now names rates (open s))) = s
  /\ exec (start_meeting now names rates) s = s.
Proof.
  intros H. apply spec_valid_entries_none in H.
  unfold exec, commits, response.
  rewrite (start_meeting_none now names rates (open s) H).
  now repeat split.
Qed.

Lemma start_meeting_no_valid_attendees_witness :
  response (start_meeting 3 [" "; "bob"; "cy"]%string [12%Q; (-4)%Q])
           (mkStore [Meeting.mk 1 0 (Some 2) false] [])
  = RedirectResponse "/setup" 303
  /\ exec (start_meeting 3 [" "; "bob"; "cy"]%string [12%Q; (-4)%Q])
          (mkStore [Meeting.mk 1 0 (Some 2) false] [])
     = mkStore [Meeting.mk 1 0 (Some 2) false] [].
Proof.
  destruct (start_meeting_no_valid_attendees 3
              [" "; "bob"; "cy"]%string [12%Q; (-4)%Q]
              (mkStore [Meeting.mk 1 0 (Some 2) false] []))
    as (Hr & _ & _ & He).
  - cbn [combine]. constructor; [left; reflexivity|].
    constructor; [right; reflexivity|]. constructor.
  - split; assumption.
Defined.

(** ** C10: lists of different lengths *)

Lemma combine_firstn_min {A B} (l : list A) :
  forall l' : list B,
    combine (firstn (Nat.min (List.length l) (List.length l')) l)
            (firstn (Nat.min (List.length l) (List.length l')) l')
    = combine l l'.
Proof.
  induction l as [|a l IH]; intros [|b l']; simpl; try reflexivity.
  now rewrite IH.
Qed.

(** C10. [start_meeting] pairs names and rates by position. When the two
    lists differ in length the handler behaves exactly as on the two lists
    cut to the shorter length: the entries of the longer list that have no
    partner are ignored before the filter, and the answer is still one of
    the two redirects, never an error. *)
Theorem start_meeting_ignores_unpaired_tail
    (now : Z) (names : list string) (rates : list Q) :
  List.length names <> List.length rates ->
  let k := Nat.min (List.length names) (List.length rates) in
  start_meeting now names rates
  = start_meeting now (firstn k names) (firstn k rates)
  /\ valid_entries_loop names rates []
     = spec_valid_entries (combine (firstn k names) (firstn k rates))
  /\ forall s,
       response (start_meeting now names rates) s
         = RedirectResponse "/setup" 303
       \/ response (start_meeting now names rates) s
         = RedirectResponse "/dashboard" 303.
Proof.
  intros _ k. assert (Hloop : valid_entries_loop names rates []
    = valid_entries_loop (firstn k names) (firstn k rates) []).
  { rewrite !valid_entries_loop_filter. unfold k.
    now rewrite combine_firstn_min. }
  split; [|split].
  - unfold start_meeting. now rewrite Hloop.
  - rewrite Hloop. apply valid_entries_loop_filter.
  - intros s.
    destruct (spec_valid_entries (combine names rates)) as [|e es] eqn:Hv.
    + left. unfold response. now rewrite (start_meeting_none _ _ _ _ Hv).
    + right. destruct (start_meeting_some now names rates s e es Hv)
        as (rows & _ & _ & Hr & _). exact Hr.
Qed.

Lemma start_meeting_ignores_unpaired_tail_witness :
  start_meeting 5 ["ann"; "bob"; "cy"]%string [50%Q]
  = start_meeting 5 ["ann"]%string [50%Q]
  /\ valid_entries_loop ["ann"; "bob"; "cy"]%string [50%Q] []
     = [("ann"%string, 50%Q)].
Proof.
  destruct (start_meeting_ignores_unpaired_tail 5
              ["ann"; "bob"; "cy"]%string [50%Q])
    as (H1 & H2 & _).
  - simpl. lia.
  - split; [exact H1|exact H2].
Defined.

(** ** Running [stop_meeting] *)

Lemma stop_meeting_some (now : Z) (s : Store) (m : Meeting.t) :
  first_active s = Some m ->
  stop_meeting now (open s)
  = (RedirectResponse ("/summary/" ++ Py.str_int (Meeting.id m)) 303,
     let s1 := mkStore (map (write_back (stopped m now)) (meetings s))
                       (attendees s) in
     mkSession s1 [s1]).
Proof.
  intros H. unfold stop_meeting, bind, query, open. cbn [view]. now rewrite H.
Qed.

Lemma stop_meeting_none (now : Z) (s : Store) :
  first_active s = None ->
  stop_meeting now (open s) = (RedirectResponse "/" 303, open s).
Proof.
  intros H. unfold stop_meeting, bind, query, open. cbn [view]. now rewrite H.
Qed.

Lemma write_back_id (m' x : Meeting.t) :
  Meeting.id (write_back m' x) = Meeting.id x.
Proof.
  unfold write_back. destruct (Z.eqb_spec (Meeting.id x) (Meeting.id m'));
    congruence.
Qed.

Lemma find_write_back_same (m' : Meeting.t) (l : list Meeting.t) :
  In (Meeting.id m') (map Meeting.id l) ->
  find (fun x => Meeting.id x =? Meeting.id m') (map (write_back m') l)
  = Some m'.
Proof.
  induction l as [|x l IH]; simpl; [easy|]. intros Hin.
  rewrite write_back_id.
  destruct (Z.eqb_spec (Meeting.id x) (Meeting.id m')) as [E|E].
  - unfold write_back. apply Z.eqb_eq in E. now rewrite E.
  - apply IH. destruct Hin; [contradiction|assumption].
Qed.

Lemma find_write_back_other (m' : Meeting.t) (k : Z) (l : list Meeting.t) :
  k <> Meeting.id m' ->
  find (fun x => Meeting.id x =? k) (map (write_back m') l)
  = find (fun x => Meeting.id x =? k) l.
Proof.
  intros Hk. induction l as [|x l IH]; simpl; [reflexivity|].
  rewrite write_back_id.
  destruct (Z.eqb_spec (Meeting.id x) k) as [E|E]; [|exact IH].
  unfold write_back.
  destruct (Z.eqb_spec (Meeting.id x) (Meeting.id m')); congruence.
Qed.

Lemma active_after_write_back (m' x : Meeting.t) (l : list Meeting.t) :
  Meeting.is_active m' = false ->
  In x (map (write_back m') l) ->
  Meeting.is_active x = true ->
  Meeting.id x <> Meeting.id m'.
Proof.
  intros Hm' Hin Hx E. apply in_map_iff in Hin.
  destruct Hin as (y & Hy & _). subst x. rewrite write_back_id in E.
  unfold write_back in Hx. apply Z.eqb_eq in E. rewrite E in Hx. congruence.
Qed.

Lemma only_active_is_first (l : list Meeting.t) (m : Meeting.t) :
  find Meeting.is_active l = Some m ->
  List.length (filter Meeting.is_active l) = 1%nat ->
  forall x, In x l -> Meeting.is_active x = true -> x = m.
Proof.
  induction l as [|y l IH]; simpl; [discriminate|].
  destruct (Meeting.is_active y) eqn:Hy.
  - intros [= ->] Hlen x [->|Hin] Hx; [reflexivity|].
    simpl in Hlen. destruct (filter Meeting.is_active l) eqn:Hf;
      [|discriminate].
    assert (In x (filter Meeting.is_active l))
      by (apply filter_In; now split).
    rewrite Hf in *. contradiction.
  - intros Hfind Hlen x [->|Hin] Hx; [congruence|]. now apply IH.
Qed.

Lemma find_none_all_inactive (l : list Meeting.t) :
  (forall x, In x l -> Meeting.is_active x = false) ->
  find Meeting.is_active l = None.
Proof.
  induction l as [|y l IH]; simpl; [reflexivity|]. intros H.
  rewrite (H y) by now left. apply IH. intros x Hx. apply H. now right.
Qed.

(** ** C5: stopping twice *)

(** C5 (as the code has it). After a stop that found the active meeting [m],
    a second [stop_meeting] leaves that meeting's row, and so its end time,
    as the first stop wrote it. The second call does not answer with the
    meeting's summary again: when [m] was the only active meeting, no
    meeting is active any more, and the second call answers with the
    redirect to [/], commits nothing and changes nothing. *)
Theorem stop_meeting_twice_keeps_end_time
    (s : Store) (t1 t2 : Z) (m : Meeting.t) :
  first_active s = Some m ->
  let s1 := exec (stop_meeting t1) s in
  let s2 := exec (stop_meeting t2) s1 in
  response (stop_meeting t1) s
  = RedirectResponse ("/summary/" ++ Py.str_int (Meeting.id m)) 303
  /\ get_meeting (Meeting.id m) s1 = Some (stopped m t1)
  /\ get_meeting (Meeting.id m) s2 = Some (stopped m t1)
  /\ (active_count s = 1%nat -> first_active s1 = None)
  /\ (first_active s1 = None ->
      response (stop_meeting t2) s1 = RedirectResponse "/" 303
      /\ commits (stop_meeting t2) s1 = []
      /\ s2 = s1).
Proof.
  intros Hm s1 s2.
  assert (Hs1 : s1 = mkStore (map (write_back (stopped m t1)) (meetings s))
                             (attendees s)).
  { unfold s1, exec, commits. now rewrite (stop_meeting_some t1 s m Hm). }
  assert (Hin : In m (meetings s) /\ Meeting.is_active m = true)
    by (apply (find_some _ _ Hm)).
  assert (Hg1 : get_meeting (Meeting.id m) s1 = Some (stopped m t1)).
  { rewrite Hs1. unfold get_meeting. cbn [meetings].
    apply (find_write_back_same (stopped m t1)). cbn. apply in_map. tauto. }
  split; [|split; [exact Hg1|split; [|split]]].
  - unfold response. now rewrite (stop_meeting_some t1 s m Hm).
  - destruct (first_active s1) as [m2|] eqn:H2.
    + unfold s2, exec, commits. rewrite (stop_meeting_some t2 s1 m2 H2).
      cbn [snd committed last]. unfold get_meeting. cbn [meetings].
      rewrite find_write_back_other; [exact Hg1|].
      apply (find_some _ _) in H2. destruct H2 as [H2in H2act].
      rewrite Hs1 in H2in. cbn [meetings] in H2in.
      intros E. cbn in E.
      now apply (active_after_write_back (stopped m t1) m2 (meetings s)).
    + unfold s2, exec, commits. rewrite (stop_meeting_none t2 s1 H2).
      exact Hg1.
  - intros Hone. rewrite Hs1. unfold first_active. cbn [meetings].
    apply find_none_all_inactive. intros x Hx.
    apply in_map_iff in Hx. destruct Hx as (y & <- & Hy).
    unfold write_back.
    destruct (Z.eqb_spec (Meeting.id y) (Meeting.id (stopped m t1))) as [E|E];
      [reflexivity|].
    destruct (Meeting.is_active y) eqn:Hact; [|reflexivity].
    exfalso. apply E.
    now rewrite (only_active_is_first (meetings s) m Hm Hone y Hy Hact).
  - intros H2. unfold s2, exec, commits, response.
    rewrite (stop_meeting_none t2 s1 H2). now repeat split.
Qed.

Lemma stop_meeting_twice_keeps_end_time_witness :
  get_meeting 1
    (exec (stop_meeting 20)
       (exec (stop_meeting 10)
          (mkStore [Meeting.mk 1 0 None true] [Attendee.mk 1 1 "ann" 50%Q])))
  = Some (Meeting.mk 1 0 (Some 10) false).
Proof.
  apply (stop_meeting_twice_keeps_end_time
           (mkStore [Meeting.mk 1 0 None true] [Attendee.mk 1 1 "ann" 50%Q])
           10 20 (Meeting.mk 1 0 None true)).
  reflexivity.
Defined.

(** C5 (as the spec has it) fails: on the store left by one start, the first
    stop answers with the summary of meeting 1 and the second one with the
    redirect to [/], which carries no meeting id. *)
Lemma stop_meeting_second_call_returns_no_id :
  let s := exec (start_meeting 0 ["ann"]%string [50%Q]) empty_store in
  response (stop_meeting 10) s = RedirectResponse "/summary/1" 303
  /\ response (stop_meeting 20) (exec (stop_meeting 10) s)
     = RedirectResponse "/" 303
  /\ response (stop_meeting 20) (exec (stop_meeting 10) s)
     <> response (stop_meeting 10) s.
Proof. repeat split; try reflexivity. vm_compute. discriminate. Qed.

(** ** C1: several active meetings *)

(** C1 (the code at the failing input). Two starts served one after the
    other, with no stop in between, leave two meetings that are both
    active, although [setup_page] on the state after the first start sends
    the user away from the form because a meeting is active. *)
Theorem start_meeting_twice_two_active :
  let s1 := serve [Start 0 ["ann"]%string [50%Q]] empty_store in
  let s2 := serve [Start 0 ["ann"]%string [50%Q];
                   Start 1 ["bob"]%string [60%Q]] empty_store in
  response setup_page s1 = RedirectResponse "/dashboard" 307
  /\ response (start_meeting 1 ["bob"]%string [60%Q]) s1
     = RedirectResponse "/dashboard" 303
  /\ meetings s2 = [Meeting.mk 1 0 None true; Meeting.mk 2 1 None true]
  /\ active_count s2 = 2%nat.
Proof. repeat split; reflexivity. Qed.

(** ** Running [summary] *)

Lemma summary_found (meeting_id now : Z) (ss : Session) (m : Meeting.t) :
  get_meeting meeting_id (view ss) = Some m ->
  summary meeting_id now ss
  = (SummaryPage
       (mkSummary m
          (format_duration (duration_seconds m now))
          (cost (duration_seconds m now)
                (map Attendee.hourly_rate (attendees_of (Meeting.id m) (view ss))))
          (List.length (attendees_of (Meeting.id m) (view ss)))),
     ss).
Proof. intros H. unfold summary, bind, query, ret. now rewrite H. Qed.

Lemma summary_session (meeting_id now : Z) (ss : Session) :
  snd (summary meeting_id now ss) = ss.
Proof.
  unfold summary, bind, query, ret.
  destruct (get_meeting meeting_id (view ss)); reflexivity.
Qed.

(** ** C9: [summary] only reads *)

(** C9. [summary] writes nothing and commits nothing: the session and the
    durable state are after the call what they were before it. For a
    meeting that is still active (no end time), the page is computed with
    [now] as the end, and the stored row keeps its empty end time, its
    active flag, its start time and its attendees. *)
Theorem summary_does_not_mutate (meeting_id now : Z) (s : Store) :
  (forall ss, snd (summary meeting_id now ss) = ss)
  /\ commits (summary meeting_id now) s = []
  /\ exec (summary meeting_id now) s = s
  /\ forall m,
       get_meeting meeting_id s = Some m ->
       Meeting.end_time m = None ->
       exists ctx,
         response (summary meeting_id now) s = SummaryPage ctx
         /\ duration_str ctx
            = format_duration (Py.total_seconds (now - Meeting.start_time m))
         /\ get_meeting meeting_id (exec (summary meeting_id now) s) = Some m
         /\ attendees_of (Meeting.id m) (exec (summary meeting_id now) s)
            = attendees_of (Meeting.id m) s.
Proof.
  assert (He : exec (summary meeting_id now) s = s).
  { unfold exec, commits. now rewrite summary_session. }
  split; [intros ss; apply summary_session|].
  split; [unfold commits; now rewrite summary_session|].
  split; [exact He|].
  intros m Hm Hend. rewrite He. unfold response.
  rewrite (summary_found meeting_id now (open s) m Hm).
  eexists. split; [reflexivity|]. cbn [duration_str fst].
  unfold duration_seconds, end_or_now. rewrite Hend. now repeat split.
Qed.

Lemma summary_does_not_mutate_witness :
  exists ctx,
    response (summary 1 90)
             (mkStore [Meeting.mk 1 30 None true] [Attendee.mk 1 1 "ann" 50%Q])
    = SummaryPage ctx
    /\ get_meeting 1
         (exec (summary 1 90)
            (mkStore [Meeting.mk 1 30 None true] [Attendee.mk 1 1 "ann" 50%Q]))
       = Some (Meeting.mk 1 30 None true).
Proof.
  destruct (summary_does_not_mutate 1 90
              (mkStore [Meeting.mk 1 30 None true] [Attendee.mk 1 1 "ann" 50%Q]))
    as (_ & _ & _ & H).
  destruct (H (Meeting.mk 1 30 None true) eq_refl eq_refl)
    as (ctx & Hr & _ & Hg & _).
  exists ctx. split; assumption.
Defined.

(** ** C4: the duration *)

(** C4 (as the code has it). [duration_seconds] is the difference between
    the end (the end time when set, otherwise [now]) and the start time, in
    seconds, with no clamping: it is at least 0 exactly when the end does
    not precede the start and negative exactly when it does, and it agrees
    with the clamped duration whenever the end does not precede the start. *)
Theorem duration_seconds_is_end_minus_start (m : Meeting.t) (now : Z) :
  (duration_seconds m now
   == inject_Z (end_or_now m now - Meeting.start_time m) / 1000000)%Q
  /\ (forall e, Meeting.end_time m = Some e -> end_or_now m now = e)
  /\ (Meeting.end_time m = None -> end_or_now m now = now)
  /\ ((0 <= duration_seconds m now)%Q
      <-> Meeting.start_time m <= end_or_now m now)
  /\ ((duration_seconds m now < 0)%Q
      <-> end_or_now m now < Meeting.start_time m)
  /\ (Meeting.start_time m <= end_or_now m now ->
      duration_seconds m now = spec_duration_seconds m now).
Proof.
  unfold duration_seconds, spec_duration_seconds, Py.total_seconds.
  set (d := end_or_now m now - Meeting.start_time m).
  assert (Hle : (0 <= d # 1000000)%Q <-> 0 <= d)
    by (unfold Qle; simpl; lia).
  assert (Hlt : (d # 1000000 < 0)%Q <-> d < 0)
    by (unfold Qlt; simpl; lia).
  split; [|split; [|split; [|split; [|split]]]].
  - unfold Qeq, Qdiv, Qmult, Qinv, inject_Z. simpl. lia.
  - intros e He. unfold end_or_now. now rewrite He.
  - intros He. unfold end_or_now. now rewrite He.
  - rewrite Hle. unfold d. lia.
  - rewrite Hlt. unfold d. lia.
  - intros H. assert (Hb : Qle_bool 0 (d # 1000000) = true).
    { apply Qle_bool_iff, Hle. unfold d. lia. }
    now rewrite Hb.
Qed.

Lemma duration_seconds_is_end_minus_start_witness :
  duration_seconds (Meeting.mk 1 2000000 (Some 5000000) false) 9000000
  = spec_duration_seconds (Meeting.mk 1 2000000 (Some 5000000) false) 9000000.
Proof.
  apply (duration_seconds_is_end_minus_start
           (Meeting.mk 1 2000000 (Some 5000000) false) 9000000).
  cbn. lia.
Defined.

(** C4 (as the spec has it) fails: a meeting started at second 10 and
    stopped when the clock reads second 5 has a duration of -5 seconds,
    not 0, and its page shows a negative hour. *)
Lemma duration_seconds_negative_when_end_precedes_start :
  let s := serve [Start 10000000 ["ann"]%string [50%Q]; Stop 5000000]
                 empty_store in
  let m := Meeting.mk 1 10000000 (Some 5000000) false in
  get_meeting 1 s = Some m
  /\ (duration_seconds m 0 == -5)%Q
  /\ ~ (0 <= duration_seconds m 0)%Q
  /\ ~ (duration_seconds m 0 == spec_duration_seconds m 0)%Q
  /\ exists ctx,
       response (summary 1 0) s = SummaryPage ctx
       /\ duration_str ctx = "-1:59:55"%string.
Proof.
  cbv zeta. split; [reflexivity|]. split; [reflexivity|].
  split; [intros H; vm_compute in H; now apply H|].
  split; [intros H; vm_compute in H; discriminate|].
  eexists. split; reflexivity.
Qed.

(** ** C6: the cost *)

Lemma fold_left_Qplus (l : list Q) :
  forall a : Q, (fold_left Qplus l a == a + fold_right Qplus 0 l)%Q.
Proof.
  induction l as [|x l IH]; intros a; simpl.
  - ring.
  - rewrite IH. ring.
Qed.

Lemma sum_fold_right (l : list Q) : (Py.sum l == fold_right Qplus 0 l)%Q.
Proof. unfold Py.sum. rewrite fold_left_Qplus. ring. Qed.

Lemma cost_spec (ds : Q) (rates : list Q) :
  (cost ds rates == spec_total_cost ds rates)%Q.
Proof. unfold cost, spec_total_cost. now rewrite sum_fold_right. Qed.






(** ** C7: the duration string *)

Lemma Qfloor_div_pos (x : Q) (p : positive) :
  Qfloor (x / inject_Z (Z.pos p)) = Qfloor x / Z.pos p.
Proof.
  destruct x as [n d]. unfold Qdiv, Qmult, Qinv, inject_Z, Qfloor. simpl.
  rewrite Z.mul_1_r, Pos2Z.inj_mul, Z.div_div by lia. reflexivity.
Qed.

Lemma Qfloor_sub_Z (x : Q) (z : Z) :
  Qfloor (x - inject_Z z) = Qfloor x - z.
Proof.
  destruct x as [n d]. unfold Qminus, Qplus, Qopp, inject_Z, Qfloor. simpl.
  rewrite Pos.mul_1_r, Z.mul_1_r.
  replace (n + - z * Z.pos d) with (n + (- z) * Z.pos d) by lia.
  rewrite Z.div_add by lia. lia.
Qed.

Lemma int_inject_Z (z : Z) : Py.int (inject_Z z) = z.
Proof. unfold Py.int, inject_Z. simpl. apply Z.quot_1_r. Qed.

Lemma int_floor_nonneg (x : Q) : 0 <= Qfloor x -> Py.int x = Qfloor x.
Proof.
  destruct x as [n d]. unfold Py.int, Qfloor. simpl. intros H.
  apply Z.quot_div_nonneg; [|lia].
  destruct (Z.neg_nonneg_cases n) as [Hn|Hn]; [|exact Hn].
  exfalso. assert (n / Z.pos d < 0) by (apply Z.div_lt_upper_bound; lia). lia.
Qed.

Lemma mod_3600_div_60 (n : Z) : (n mod 3600) / 60 = (n / 60) mod 60.
Proof.
  change 3600 with (60 * 60). rewrite Z.rem_mul_r by lia.
  rewrite Z.mul_comm, Z.div_add by lia.
  rewrite Z.div_small by (apply Z.mod_pos_bound; lia). lia.
Qed.

Lemma format_02d_pad2 (z : Z) : 0 <= z -> Py.format_02d z = pad2 z.
Proof.
  intros H. unfold Py.format_02d, pad2.
  destruct (Z.ltb_spec z 0); [lia|reflexivity].
Qed.

Lemma divmod_parts (ds : Q) :
  format_duration ds
  = (Py.format_02d (Qfloor ds / 3600) ++ ":" ++
     Py.format_02d ((Qfloor ds / 60) mod 60) ++ ":" ++
     Py.format_02d (Qfloor ds mod 60))%string.
Proof.
  unfold format_duration, Py.divmod.
  change 3600%Q with (inject_Z 3600). change 60%Q with (inject_Z 60).
  rewrite !int_inject_Z, !Qfloor_div_pos.
  set (N := Qfloor ds). set (H := N / 3600).
  assert (Hrem : Qfloor (ds - inject_Z H * inject_Z 3600) = N mod 3600).
  { rewrite <- inject_Z_mult, Qfloor_sub_Z. fold N. unfold H.
    rewrite Z.mod_eq by lia. lia. }
  rewrite Hrem, mod_3600_div_60.
  set (M := (N / 60) mod 60).
  assert (Hsec : Qfloor (ds - inject_Z H * inject_Z 3600
                         - inject_Z M * inject_Z 60) = N mod 60).
  { rewrite <- (inject_Z_mult M), Qfloor_sub_Z, Hrem. unfold M.
    change 3600 with (60 * 60). rewrite Z.rem_mul_r by lia. lia. }
  rewrite int_floor_nonneg; rewrite Hsec; [reflexivity|].
  apply Z.mod_pos_bound. lia.
Qed.

Lemma pad2_two_digits (z : Z) :
  0 <= z < 100 -> String.length (pad2 z) = 2%nat.
Proof.
  intros Hz.
  assert (Hall : forallb (fun n => Nat.eqb (String.length (pad2 (Z.of_nat n))) 2)
                         (seq 0 100) = true) by (vm_compute; reflexivity).
  rewrite forallb_forall in Hall.
  specialize (Hall (Z.to_nat z)). rewrite Z2Nat.id in Hall by lia.
  apply Nat.eqb_eq, Hall, in_seq. lia.
Qed.

(** C7. For a duration of at least 0 seconds the string on the page is
    hours, minutes and seconds, each written with at least two digits and
    separated by colons, where the hours are the whole number of 3600
    seconds in the duration, not reduced modulo 24 or anything else, and
    the minutes and the seconds are reduced modulo 60 and so take exactly
    two digits. Thirty hours are written ["30:00:00"]. *)
Theorem format_duration_hh_mm_ss :
  (forall ds : Q,
      (0 <= ds)%Q ->
      format_duration ds = spec_duration_string ds
      /\ Py.int (fst (Py.divmod ds 3600)) = Qfloor (ds / 3600)
      /\ 0 <= Qfloor (ds / 60) mod 60 < 60
      /\ 0 <= Qfloor ds mod 60 < 60
      /\ String.length (pad2 (Qfloor (ds / 60) mod 60)) = 2%nat
      /\ String.length (pad2 (Qfloor ds mod 60)) = 2%nat)
  /\ format_duration (30 * 3600) = "30:00:00"%string
  /\ spec_duration_string (30 * 3600) = "30:00:00"%string.
Proof.
  split; [|split; reflexivity].
  intros ds Hds.
  assert (HN : 0 <= Qfloor ds).
  { change 0 with (Qfloor 0). now apply Qfloor_resp_le. }
  assert (Hm : 0 <= Qfloor (ds / 60) mod 60 < 60)
    by (apply Z.mod_pos_bound; lia).
  assert (Hs : 0 <= Qfloor ds mod 60 < 60) by (apply Z.mod_pos_bound; lia).
  split; [|split; [|split; [exact Hm|split; [exact Hs|split]]]].
  - rewrite divmod_parts. unfold spec_duration_string.
    change 3600%Q with (inject_Z 3600). change 60%Q with (inject_Z 60).
    rewrite !Qfloor_div_pos.
    rewrite !format_02d_pad2; try reflexivity.
    + apply Z.mod_pos_bound. lia.
    + apply Z.mod_pos_bound. lia.
    + apply Z.div_pos; lia.
  - unfold Py.divmod. cbn [fst]. apply int_inject_Z.
  - apply pad2_two_digits. lia.
  - apply pad2_two_digits. lia.
Qed.

Lemma format_duration_hh_mm_ss_witness :
  format_duration (5400750 # 1000) = spec_duration_string (5400750 # 1000)
  /\ spec_duration_string (5400750 # 1000) = "01:30:00"%string.
Proof.
  split; [|reflexivity].
  apply (proj1 format_duration_hh_mm_ss (5400750 # 1000)).
  unfold Qle. simpl. lia.
Defined.

(** ** Foreign keys hold in every state the handlers can produce *)

Lemma map_id_write_back (m' : Meeting.t) (l : list Meeting.t) :
  map Meeting.id (map (write_back m') l) = map Meeting.id l.
Proof.
  rewrite map_map. apply map_ext. intros x. apply write_back_id.
Qed.

Lemma exec_foreign_keys_ok (rq : Request) (s : Store) :
  foreign_keys_ok s -> foreign_keys_ok (exec (handler rq) s).
Proof.
  intros Hfk. destruct rq as [now names rates|now|meeting_id now|]; cbn [handler].
  - destruct (spec_valid_entries (combine names rates)) as [|e es] eqn:Hv.
    + unfold exec, commits. now rewrite (start_meeting_none _ _ _ _ Hv).
    + destruct (start_meeting_some now names rates s e es Hv)
        as (rows & _ & Hrows & _ & Hc).
      rewrite (exec_start_meeting_some _ _ _ _ _ _ Hc).
      unfold foreign_keys_ok in *. cbn [meetings attendees].
      rewrite map_app. apply Forall_app. split.
      * eapply Forall_impl; [|exact Hfk]. intros a Ha.
        apply in_or_app. now left.
      * eapply Forall_impl; [|exact Hrows]. intros a Ha.
        apply in_or_app. right. rewrite Ha. now left.
  - destruct (first_active s) as [m|] eqn:Hm.
    + unfold exec, commits. rewrite (stop_meeting_some now s m Hm).
      cbn [snd committed last]. unfold foreign_keys_ok in *.
      cbn [meetings attendees]. now rewrite map_id_write_back.
    + unfold exec, commits. now rewrite (stop_meeting_none now s Hm).
  - unfold exec, commits. now rewrite summary_session.
  - unfold exec, commits, setup_page, bind, query, ret, open. cbn [view].
    now destruct (first_active s).
Qed.

Lemma serve_foreign_keys_ok (rqs : list Request) :
  forall s, foreign_keys_ok s -> foreign_keys_ok (serve rqs s).
Proof.
  induction rqs as [|rq rqs IH]; intros s Hfk; simpl; [exact Hfk|].
  apply IH. now apply exec_foreign_keys_ok.
Qed.

Lemma reachable_foreign_keys_ok (rqs : list Request) :
  foreign_keys_ok (serve rqs empty_store).
Proof. apply serve_foreign_keys_ok. constructor. Qed.

(** * Further properties of the handlers *)

(** ** Every request is one transition *)

Lemma filter_idem {A} (f : A -> bool) (l : list A) :
  filter f (filter f l) = filter f l.
Proof.
  induction l as [|a l IH]; simpl; [reflexivity|].
  destruct (f a) eqn:E; simpl; [now rewrite E, IH|exact IH].
Qed.

Lemma exec_transition (rq : Request) (s : Store) :
  transition s (exec (handler rq) s).
Proof.
  destruct rq as [now names rates|now|meeting_id now|]; cbn [handler].
  - destruct (spec_valid_entries (combine names rates)) as [|e es] eqn:Hv.
    + unfold exec, commits. rewrite (start_meeting_none _ _ _ _ Hv).
      constructor.
    + destruct (start_meeting_some now names rates s e es Hv)
        as (rows & Hent & Hrows & _ & Hc).
      rewrite (exec_start_meeting_some _ _ _ _ _ _ Hc).
      apply (tr_start s now (e :: es) rows); try assumption; [discriminate|].
      rewrite <- Hv. apply filter_idem.
  - destruct (first_active s) as [m|] eqn:Hm.
    + unfold exec, commits. rewrite (stop_meeting_some now s m Hm).
      cbn [snd committed last]. now constructor.
    + unfold exec, commits. rewrite (stop_meeting_none now s Hm). constructor.
  - unfold exec, commits. rewrite summary_session. constructor.
  - unfold exec, commits, setup_page, bind, query, ret, open. cbn [view].
    destruct (first_active s); constructor.
Qed.

Lemma serve_invariant (P : Store -> Prop) :
  (forall s s', P s -> transition s s' -> P s') ->
  forall rqs s, P s -> P (serve rqs s).
Proof.
  intros Hstep rqs. induction rqs as [|rq rqs IH]; intros s Hs; simpl;
    [exact Hs|].
  apply IH. apply (Hstep s); [exact Hs|apply exec_transition].
Qed.

(** ** Keys *)

Lemma fold_max_from (l : list Z) (a : Z) :
  0 <= a -> fold_right Z.max a l = Z.max a (fold_right Z.max 0 l).
Proof.
  intros Ha. induction l as [|y l IH]; cbn [fold_right]; [lia|].
  rewrite IH. lia.
Qed.

Lemma next_id_ids_upto (n : nat) : next_id (ids_upto n) = Z.of_nat (S n).
Proof.
  unfold next_id. induction n as [|n IH].
  - reflexivity.
  - unfold ids_upto in *. rewrite seq_S, map_app, fold_right_app.
    cbn [map fold_right Nat.add].
    rewrite fold_max_from by lia. lia.
Qed.

Lemma ids_upto_S (n : nat) : ids_upto (S n) = ids_upto n ++ [Z.of_nat (S n)].
Proof. unfold ids_upto. now rewrite seq_S, map_app. Qed.

Lemma in_ids_upto (n : nat) (k : Z) :
  In k (ids_upto n) <-> 1 <= k <= Z.of_nat n.
Proof.
  unfold ids_upto. rewrite in_map_iff. split.
  - intros (i & <- & Hi). apply in_seq in Hi. lia.
  - intros Hk. exists (Z.to_nat k). split; [lia|]. apply in_seq. lia.
Qed.

Lemma transition_ids_sequential (s s' : Store) :
  map Meeting.id (meetings s) = ids_upto (List.length (meetings s)) ->
  transition s s' ->
  map Meeting.id (meetings s') = ids_upto (List.length (meetings s')).
Proof.
  intros H [|now entries rows m _ _ _ _|now m _]; [exact H| |].
  - cbn [meetings]. rewrite map_app, length_app, Nat.add_1_r, ids_upto_S.
    cbn [map Meeting.id]. unfold m. cbn [Meeting.id].
    now rewrite H, next_id_ids_upto.
  - cbn [meetings]. now rewrite map_id_write_back, length_map.
Qed.

Lemma serve_ids_sequential (rqs : list Request) :
  map Meeting.id (meetings (serve rqs empty_store))
  = ids_upto (List.length (meetings (serve rqs empty_store))).
Proof.
  apply (serve_invariant
           (fun s => map Meeting.id (meetings s)
                     = ids_upto (List.length (meetings s)))).
  - apply transition_ids_sequential.
  - reflexivity.
Qed.

Lemma transition_unique_ids (s s' : Store) :
  unique_ids s -> transition s s' -> unique_ids s'.
Proof.
  unfold unique_ids.
  intros H [|now entries rows m _ _ _ _|now m _]; [exact H| |].
  - cbn [meetings]. rewrite map_app. cbn [map].
    apply NoDup_app; [exact H|repeat constructor; easy|].
    intros k Hk [<-|[]]. now apply (next_id_fresh (map Meeting.id (meetings s))).
  - cbn [meetings]. now rewrite map_id_write_back.
Qed.

Lemma serve_unique_ids (rqs : list Request) :
  forall s, unique_ids s -> unique_ids (serve rqs s).
Proof. apply serve_invariant. apply transition_unique_ids. Qed.

(** X: keys of meetings. After any sequence of requests served from the
    empty database, the keys of the meetings are 1, 2, ..., n in row order,
    where n is the number of meetings; in particular they are pairwise
    distinct. *)
Theorem served_meeting_ids_are_sequential (rqs : list Request) :
  let s := serve rqs empty_store in
  map Meeting.id (meetings s) = ids_upto (List.length (meetings s))
  /\ unique_ids s.
Proof.
  split; [apply serve_ids_sequential|].
  apply serve_unique_ids. constructor.
Qed.

(** ** Invariants of the rows *)

Lemma transition_active_iff_open (s s' : Store) :
  Forall (fun m => Meeting.is_active m = true <-> Meeting.end_time m = None)
         (meetings s) ->
  transition s s' ->
  Forall (fun m => Meeting.is_active m = true <-> Meeting.end_time m = None)
         (meetings s').
Proof.
  intros H [|now entries rows m _ _ _ _|now m _]; [exact H| |]; cbn [meetings].
  - apply Forall_app. split; [exact H|]. now repeat constructor.
  - rewrite Forall_forall in *. intros x Hx.
    apply in_map_iff in Hx. destruct Hx as (y & <- & Hy).
    unfold write_back. destruct (Meeting.id y =? _); [|now apply H].
    cbn. split; discriminate.
Qed.

(** X: active flag and end time. After any sequence of requests served from
    the empty database, a meeting is active exactly when it has no end
    time. *)
Theorem served_active_iff_no_end_time (rqs : list Request) (m : Meeting.t) :
  In m (meetings (serve rqs empty_store)) ->
  (Meeting.is_active m = true <-> Meeting.end_time m = None).
Proof.
  revert m. apply Forall_forall.
  apply (serve_invariant
           (fun s => Forall (fun m => Meeting.is_active m = true
                                      <-> Meeting.end_time m = None)
                            (meetings s))).
  - apply transition_active_iff_open.
  - constructor.
Qed.

Lemma served_active_iff_no_end_time_witness :
  Meeting.is_active (Meeting.mk 1 0 (Some 9) false) = true
  <-> Meeting.end_time (Meeting.mk 1 0 (Some 9) false) = None.
Proof.
  apply (served_active_iff_no_end_time
           [Start 0 ["ann"]%string [50%Q]; Stop 9]).
  vm_compute. left. reflexivity.
Defined.

Lemma transition_has_attendee (s s' : Store) :
  Forall (fun m => attendees_of (Meeting.id m) s <> []) (meetings s) ->
  transition s s' ->
  Forall (fun m => attendees_of (Meeting.id m) s' <> []) (meetings s').
Proof.
  intros H [|now entries rows m Hne _ Hent Hrows|now m _]; [exact H| |];
    unfold attendees_of in *; cbn [meetings attendees].
  - apply Forall_app. split.
    + eapply Forall_impl; [|exact H]. intros x Hx. cbn beta in *.
      rewrite filter_app. intros E. apply app_eq_nil in E. tauto.
    + constructor; [|constructor]. rewrite filter_app.
      rewrite (filter_all _ rows).
      * intros E. apply app_eq_nil in E. destruct E as [_ ->].
        apply Hne. now rewrite <- Hent.
      * eapply Forall_impl; [|exact Hrows]. intros a Ha. now apply Z.eqb_eq.
  - rewrite Forall_forall in *. intros x Hx.
    apply in_map_iff in Hx. destruct Hx as (y & <- & Hy).
    rewrite write_back_id. now apply H.
Qed.

(** X: no meeting without attendees. After any sequence of requests served
    from the empty database, every meeting has at least one attendee row. *)
Theorem served_meeting_has_attendee (rqs : list Request) (m : Meeting.t) :
  In m (meetings (serve rqs empty_store)) ->
  attendees_of (Meeting.id m) (serve rqs empty_store) <> [].
Proof.
  revert m. apply Forall_forall.
  apply (serve_invariant
           (fun s => Forall (fun m => attendees_of (Meeting.id m) s <> [])
                            (meetings s))).
  - apply transition_has_attendee.
  - constructor.
Qed.

Lemma served_meeting_has_attendee_witness :
  attendees_of 1 (serve [Start 0 ["ann"; " "]%string [50%Q; 3%Q]; Stop 9]
                        empty_store) <> [].
Proof.
  apply (served_meeting_has_attendee
           [Start 0 ["ann"; " "]%string [50%Q; 3%Q]; Stop 9]
           (Meeting.mk 1 0 (Some 9) false)).
  vm_compute. left. reflexivity.
Defined.

Lemma spec_valid_entries_all (entries : list (string * Q)) :
  spec_valid_entries entries = entries ->
  Forall (fun e => spec_keeps e = true) entries.
Proof.
  intros H. apply Forall_forall. intros e He. rewrite <- H in He.
  now apply filter_In in He.
Qed.

Lemma transition_attendees_valid (s s' : Store) :
  Forall (fun a => valid (Attendee.name a) (Attendee.hourly_rate a) = true)
         (attendees s) ->
  transition s s' ->
  Forall (fun a => valid (Attendee.name a) (Attendee.hourly_rate a) = true)
         (attendees s').
Proof.
  intros H [|now entries rows m _ Hall Hent _|now m _]; [exact H| |exact H].
  cbn [attendees]. apply Forall_app. split; [exact H|].
  apply spec_valid_entries_all in Hall. rewrite Forall_forall in *.
  intros a Ha. rewrite valid_spec_keeps. apply Hall. rewrite <- Hent.
  unfold entries_of.
  apply (in_map (fun a => (Attendee.name a, Attendee.hourly_rate a))).
  exact Ha.
Qed.

Lemma serve_attendees_valid (rqs : list Request) :
  Forall (fun a => valid (Attendee.name a) (Attendee.hourly_rate a) = true)
         (attendees (serve rqs empty_store)).
Proof.
  apply (serve_invariant
           (fun s => Forall (fun a => valid (Attendee.name a)
                                            (Attendee.hourly_rate a) = true)
                            (attendees s))).
  - apply transition_attendees_valid.
  - constructor.
Qed.

(** X: stored attendees are valid. After any sequence of requests served
    from the empty database, every attendee row has a name that is not
    empty once stripped and an hourly rate of at least 0. *)
Theorem served_attendees_are_valid (rqs : list Request) (a : Attendee.t) :
  In a (attendees (serve rqs empty_store)) ->
  Py.strip (Attendee.name a) <> EmptyString
  /\ (0 <= Attendee.hourly_rate a)%Q.
Proof.
  intros Ha. pose proof (serve_attendees_valid rqs) as H.
  rewrite Forall_forall in H. specialize (H a Ha).
  unfold valid in H. apply andb_true_iff in H. destruct H as [Hn Hr].
  split.
  - intros E. rewrite E in Hn. discriminate.
  - now apply Qle_bool_iff.
Qed.

Lemma served_attendees_are_valid_witness :
  Py.strip "ann" <> EmptyString /\ (0 <= 50)%Q.
Proof.
  apply (served_attendees_are_valid
           [Start 0 ["ann"; "bob"]%string [50%Q; (-2)%Q]]
           (Attendee.mk 1 1 "ann" 50%Q)).
  vm_compute. left. reflexivity.
Defined.

(** ** [summary] on unknown keys *)

Lemma get_meeting_none_iff (meeting_id : Z) (s : Store) :
  get_meeting meeting_id s = None
  <-> ~ In meeting_id (map Meeting.id (meetings s)).
Proof.
  unfold get_meeting. split.
  - intros H Hin. apply in_map_iff in Hin. destruct Hin as (m & Hm & Hin).
    apply (find_none _ _ H) in Hin. cbn beta in Hin. lia.
  - apply find_id_absent.
Qed.

Lemma summary_404_iff (meeting_id now : Z) (s : Store) :
  response (summary meeting_id now) s = HTTPException 404 "Meeting not found"
  <-> get_meeting meeting_id s = None.
Proof.
  unfold response. destruct (get_meeting meeting_id s) as [m|] eqn:Hm.
  - rewrite (summary_found meeting_id now (open s) m Hm). cbn [fst].
    split; discriminate.
  - unfold summary, bind, query, ret, open. cbn [view]. rewrite Hm.
    split; reflexivity.
Qed.

(** X: unknown meeting. After any sequence of requests served from the
    empty database, and for a key within the signed 64-bit range that the
    database driver accepts, [summary] answers 404 "Meeting not found"
    exactly when the key lies outside 1..n, where n is the number of
    meetings created so far; for every key in 1..n it renders a page. *)
Theorem served_summary_404_iff_key_out_of_range
    (rqs : list Request) (meeting_id now : Z) :
  - 2 ^ 63 <= meeting_id < 2 ^ 63 ->
  let s := serve rqs empty_store in
  (response (summary meeting_id now) s
   = HTTPException 404 "Meeting not found"
   <-> ~ (1 <= meeting_id <= Z.of_nat (List.length (meetings s))))
  /\ (1 <= meeting_id <= Z.of_nat (List.length (meetings s)) ->
      exists ctx, response (summary meeting_id now) s = SummaryPage ctx).
Proof.
  intros _ s. assert (Hin : get_meeting meeting_id s = None
    <-> ~ (1 <= meeting_id <= Z.of_nat (List.length (meetings s)))).
  { rewrite get_meeting_none_iff. unfold s. rewrite serve_ids_sequential.
    now rewrite in_ids_upto. }
  split.
  - now rewrite summary_404_iff.
  - intros Hk. destruct (get_meeting meeting_id s) as [m|] eqn:Hm.
    + unfold response. rewrite (summary_found meeting_id now (open s) m Hm).
      eexists. reflexivity.
    + exfalso. now apply Hin.
Qed.

Lemma served_summary_404_iff_key_out_of_range_witness :
  response (summary 2 5) (serve [Start 0 ["ann"]%string [50%Q]] empty_store)
  = HTTPException 404 "Meeting not found"
  /\ exists ctx,
       response (summary 1 5)
                (serve [Start 0 ["ann"]%string [50%Q]] empty_store)
       = SummaryPage ctx.
Proof.
  split.
  - apply (served_summary_404_iff_key_out_of_range
             [Start 0 ["ann"]%string [50%Q]] 2 5); [lia|].
    vm_compute. intros [_ H]. now apply H.
  - apply (served_summary_404_iff_key_out_of_range
             [Start 0 ["ann"]%string [50%Q]] 1 5); [lia|].
    vm_compute. split; discriminate.
Defined.

(** ** What [start_meeting] adds *)

Lemma find_app_some {A} (f : A -> bool) (l1 l2 : list A) (a : A) :
  find f l1 = Some a -> find f (l1 ++ l2) = Some a.
Proof.
  induction l1 as [|x l1 IH]; simpl; [discriminate|].
  destruct (f x); [easy|exact IH].
Qed.

Lemma exec_start_meeting_shape
    (now : Z) (names : list string) (rates : list Q) (s : Store) :
  spec_valid_entries (combine names rates) <> [] ->
  let m := Meeting.mk (next_id (map Meeting.id (meetings s))) now None true in
  exists rows,
    exec (start_meeting now names rates) s
    = mkStore (meetings s ++ [m]) (attendees s ++ rows)
    /\ entries_of rows = spec_valid_entries (combine names rates)
    /\ Forall (fun a => Attendee.meeting_id a = Meeting.id m) rows.
Proof.
  intros Hne m.
  destruct (spec_valid_entries (combine names rates)) as [|e es] eqn:Hv;
    [congruence|].
  destruct (start_meeting_some now names rates s e es Hv)
    as (rows & Hent & Hrows & _ & Hc).
  exists rows. split; [|split; assumption].
  apply (exec_start_meeting_some _ _ _ _ _ _ Hc).
Qed.

(** X: a start always adds an active meeting. Whenever at least one pair
    is valid, [start_meeting] appends one meeting and raises the number of
    active meetings by one, whether or not a meeting was active before; the
    meeting that was first active before, if any, stays the first active
    one. *)
Theorem start_meeting_adds_one_active
    (now : Z) (names : list string) (rates : list Q) (s : Store) :
  spec_valid_entries (combine names rates) <> [] ->
  let s' := exec (start_meeting now names rates) s in
  List.length (meetings s') = S (List.length (meetings s))
  /\ active_count s' = S (active_count s)
  /\ forall m0, first_active s = Some m0 -> first_active s' = Some m0.
Proof.
  intros Hne s'.
  destruct (exec_start_meeting_shape now names rates s Hne)
    as (rows & Hs' & _ & _).
  fold s' in Hs'. rewrite Hs'. unfold active_count, first_active.
  cbn [meetings]. split; [|split].
  - rewrite length_app. cbn. lia.
  - rewrite filter_app, length_app. cbn. lia.
  - intros m0 H0. now apply find_app_some.
Qed.

Lemma start_meeting_adds_one_active_witness :
  active_count (exec (start_meeting 4 ["bob"]%string [60%Q])
                     (mkStore [Meeting.mk 1 0 None true]
                              [Attendee.mk 1 1 "ann" 50%Q]))
  = 2%nat.
Proof.
  apply (start_meeting_adds_one_active 4 ["bob"]%string [60%Q]
           (mkStore [Meeting.mk 1 0 None true] [Attendee.mk 1 1 "ann" 50%Q])).
  vm_compute. discriminate.
Defined.

(** ** What [stop_meeting] changes *)

Lemma map_write_back_absent (m' : Meeting.t) (l : list Meeting.t) :
  ~ In (Meeting.id m') (map Meeting.id l) -> map (write_back m') l = l.
Proof.
  induction l as [|x l IH]; simpl; [reflexivity|]. intros H.
  unfold write_back at 1.
  destruct (Z.eqb_spec (Meeting.id x) (Meeting.id m')) as [E|E];
    [exfalso; apply H; now left|].
  rewrite IH; [reflexivity|]. tauto.
Qed.

Lemma same_id_same_row (l : list Meeting.t) (a b : Meeting.t) :
  NoDup (map Meeting.id l) -> In a l -> In b l ->
  Meeting.id a = Meeting.id b -> a = b.
Proof.
  induction l as [|x l IH]; simpl; [easy|].
  intros Hnd Ha Hb E. inversion Hnd as [|? ? Hx Hnd']; subst.
  destruct Ha as [->|Ha], Hb as [->|Hb]; try reflexivity.
  - exfalso. apply Hx. rewrite E. now apply in_map.
  - exfalso. apply Hx. rewrite <- E. now apply in_map.
  - now apply IH.
Qed.

Lemma write_back_replaces_one (l : list Meeting.t) (m m' : Meeting.t) :
  NoDup (map Meeting.id l) -> In m l -> Meeting.id m' = Meeting.id m ->
  exists before after,
    l = before ++ m :: after
    /\ map (write_back m') l = before ++ m' :: after.
Proof.
  intros Hnd Hin Hid.
  destruct (in_split _ _ Hin) as (before & after & ->).
  exists before, after. split; [reflexivity|].
  rewrite map_app in Hnd. cbn [map] in Hnd.
  pose proof (NoDup_remove_2 _ _ _ Hnd) as Hout.
  rewrite map_app. cbn [map]. unfold write_back at 2.
  rewrite Hid, Z.eqb_refl.
  rewrite !map_write_back_absent; [reflexivity| |]; rewrite Hid;
    intros H; apply Hout, in_or_app; tauto.
Qed.

(** X: a stop touches one row. When meeting keys are distinct and [m] is
    the first active meeting, [stop_meeting] answers with the redirect to
    the summary of [m], commits once, replaces the row of [m] by the same
    row made inactive with [now] as end time, and leaves every other
    meeting row and every attendee row as it was; the number of active
    meetings goes down by one. *)
Theorem stop_meeting_stops_only_first_active
    (now : Z) (s : Store) (m : Meeting.t) :
  unique_ids s ->
  first_active s = Some m ->
  let s' := exec (stop_meeting now) s in
  commits (stop_meeting now) s = [s']
  /\ attendees s' = attendees s
  /\ (exists before after,
        meetings s = before ++ m :: after
        /\ meetings s' = before ++ stopped m now :: after
        /\ Forall (fun x => Meeting.is_active x = false) before)
  /\ active_count s = S (active_count s').
Proof.
  intros Hnd Hm s'.
  assert (Hs' : s' = mkStore (map (write_back (stopped m now)) (meetings s))
                             (attendees s)).
  { unfold s', exec, commits. now rewrite (stop_meeting_some now s m Hm). }
  assert (Hin : In m (meetings s) /\ Meeting.is_active m = true)
    by (apply (find_some _ _ Hm)).
  destruct (write_back_replaces_one (meetings s) m (stopped m now) Hnd
              (proj1 Hin) eq_refl) as (before & after & Hl & Hl').
  assert (Hbefore : Forall (fun x => Meeting.is_active x = false) before).
  { apply Forall_forall. intros x Hx.
    destruct (Meeting.is_active x) eqn:Hact; [|reflexivity]. exfalso.
    unfold first_active in Hm. rewrite Hl in Hm.
    assert (Hf : exists y, find Meeting.is_active before = Some y).
    { clear - Hx Hact. induction before as [|y before IH]; [easy|]. simpl.
      destruct (Meeting.is_active y) eqn:Hy; [now exists y|].
      destruct Hx as [->|Hx]; [congruence|now apply IH]. }
    destruct Hf as (y & Hy).
    rewrite (find_app_some _ _ _ _ Hy) in Hm. injection Hm as ->.
    apply find_some in Hy. destruct Hy as [Hy _].
    unfold unique_ids in Hnd. rewrite Hl, map_app in Hnd. cbn [map] in Hnd.
    apply NoDup_remove_2 in Hnd. apply Hnd, in_or_app. left.
    now apply in_map. }
  split; [|split; [|split]].
  - unfold commits. rewrite (stop_meeting_some now s m Hm). cbn.
    now rewrite Hs'.
  - now rewrite Hs'.
  - exists before, after. rewrite Hs'. cbn [meetings]. now repeat split.
  - unfold active_count. rewrite Hs'. cbn [meetings]. rewrite Hl', Hl.
    rewrite !filter_app, !length_app. cbn [filter stopped Meeting.is_active].
    rewrite (proj2 Hin). cbn [List.length]. lia.
Qed.

Lemma stop_meeting_stops_only_first_active_witness :
  active_count (mkStore [Meeting.mk 1 0 None true; Meeting.mk 2 3 None true] [])
  = S (active_count
         (exec (stop_meeting 8)
            (mkStore [Meeting.mk 1 0 None true; Meeting.mk 2 3 None true] []))).
Proof.
  apply (stop_meeting_stops_only_first_active 8
           (mkStore [Meeting.mk 1 0 None true; Meeting.mk 2 3 None true] [])
           (Meeting.mk 1 0 None true)).
  - unfold unique_ids. cbn. repeat constructor; cbn; intuition lia.
  - reflexivity.
Defined.

(** ** Rows that no request changes *)

Lemma transition_keeps_stopped (s s' : Store) (k : Z) (m : Meeting.t) :
  unique_ids s ->
  get_meeting k s = Some m ->
  Meeting.is_active m = false ->
  transition s s' ->
  get_meeting k s' = Some m.
Proof.
  intros Hnd Hg Hoff [|now entries rows m1 _ _ _ _|now m2 H2]; [exact Hg| |];
    unfold get_meeting in *; cbn [meetings].
  - now apply find_app_some.
  - destruct (find_some _ _ Hg) as [Hin Hk]. apply Z.eqb_eq in Hk.
    apply find_some in H2. destruct H2 as [Hin2 Hon].
    rewrite find_write_back_other.
    + exact Hg.
    + cbn. intros E. rewrite <- Hk in E.
      rewrite (same_id_same_row _ _ _ Hnd Hin Hin2 E) in Hoff. congruence.
Qed.

(** X: a stopped meeting is final. In a database with distinct meeting
    keys, a meeting that is inactive is found unchanged under its key after
    any further sequence of requests: its end time is never stamped again,
    it is never reactivated and never removed. *)
Theorem stopped_meeting_never_changes
    (rqs : list Request) (s : Store) (k : Z) (m : Meeting.t) :
  unique_ids s ->
  get_meeting k s = Some m ->
  Meeting.is_active m = false ->
  get_meeting k (serve rqs s) = Some m.
Proof.
  revert s. induction rqs as [|rq rqs IH]; intros s Hnd Hg Hoff; simpl;
    [exact Hg|].
  pose proof (exec_transition rq s) as Htr.
  apply IH; [now apply (transition_unique_ids s)| |exact Hoff].
  now apply (transition_keeps_stopped s).
Qed.

Lemma stopped_meeting_never_changes_witness :
  get_meeting 1
    (serve [Stop 5; Start 6 ["bob"]%string [60%Q]; Stop 7; Stop 8]
           (mkStore [Meeting.mk 1 0 (Some 3) false] []))
  = Some (Meeting.mk 1 0 (Some 3) false).
Proof.
  apply (stopped_meeting_never_changes
           [Stop 5; Start 6 ["bob"]%string [60%Q]; Stop 7; Stop 8]
           (mkStore [Meeting.mk 1 0 (Some 3) false] []) 1
           (Meeting.mk 1 0 (Some 3) false)).
  - unfold unique_ids. cbn. repeat constructor. cbn. tauto.
  - reflexivity.
  - reflexivity.
Defined.

Lemma transition_append_only (s s' : Store) :
  unique_ids s ->
  transition s s' ->
  exists more_meetings more_rows,
    map birth (meetings s') = map birth (meetings s) ++ more_meetings
    /\ attendees s' = attendees s ++ more_rows.
Proof.
  intros Hnd [|now entries rows m _ _ _ _|now m Hm]; cbn [meetings attendees].
  - exists [], []. now rewrite !app_nil_r.
  - exists [birth m], rows. now rewrite map_app.
  - exists [], []. rewrite !app_nil_r. split; [|reflexivity].
    rewrite map_map. apply map_ext_in. intros x Hx.
    unfold write_back.
    destruct (Z.eqb_spec (Meeting.id x) (Meeting.id (stopped m now)))
      as [E|E]; [|reflexivity].
    apply find_some in Hm. destruct Hm as [Hin _]. cbn in E.
    now rewrite (same_id_same_row _ _ _ Hnd Hx Hin E).
Qed.

(** X: the tables only grow. Starting from a database with distinct
    meeting keys, after any sequence of requests the meetings table begins
    with the same rows as before as far as key and start time go, and the
    attendees table begins with exactly the rows it had: no request deletes
    a row, renumbers a meeting, moves a start time or edits an attendee. *)
Theorem served_tables_only_grow (rqs : list Request) (s : Store) :
  unique_ids s ->
  exists more_meetings more_rows,
    map birth (meetings (serve rqs s))
    = map birth (meetings s) ++ more_meetings
    /\ attendees (serve rqs s) = attendees s ++ more_rows.
Proof.
  revert s. induction rqs as [|rq rqs IH]; intros s Hnd; simpl.
  - exists [], []. now rewrite !app_nil_r.
  - pose proof (exec_transition rq s) as Htr.
    destruct (transition_append_only _ _ Hnd Htr) as (m1 & r1 & Hm1 & Hr1).
    destruct (IH _ (transition_unique_ids _ _ Hnd Htr))
      as (m2 & r2 & Hm2 & Hr2).
    exists (m1 ++ m2), (r1 ++ r2).
    rewrite Hm2, Hr2, Hm1, Hr1. now rewrite !app_assoc.
Qed.

Lemma served_tables_only_grow_witness :
  exists more_meetings more_rows,
    map birth (meetings (serve [Stop 9; Start 10 ["bob"]%string [60%Q]]
                 (mkStore [Meeting.mk 1 0 None true]
                          [Attendee.mk 1 1 "ann" 50%Q])))
    = [(1, 0)] ++ more_meetings
    /\ attendees (serve [Stop 9; Start 10 ["bob"]%string [60%Q]]
                    (mkStore [Meeting.mk 1 0 None true]
                             [Attendee.mk 1 1 "ann" 50%Q]))
       = [Attendee.mk 1 1 "ann" 50%Q] ++ more_rows.
Proof.
  apply (served_tables_only_grow [Stop 9; Start 10 ["bob"]%string [60%Q]]
           (mkStore [Meeting.mk 1 0 None true] [Attendee.mk 1 1 "ann" 50%Q])).
  unfold unique_ids. cbn. repeat constructor. cbn. tauto.
Defined.

(** ** Start, stop, summary *)

Lemma attendees_of_new_meeting (s : Store) (rows : list Attendee.t) :
  foreign_keys_ok s ->
  Forall (fun a => Attendee.meeting_id a
                   = next_id (map Meeting.id (meetings s))) rows ->
  filter (fun a => Attendee.meeting_id a
                   =? next_id (map Meeting.id (meetings s)))
         (attendees s ++ rows) = rows.
Proof.
  intros Hfk Hrows. rewrite filter_app, attendees_of_absent, filter_all.
  - reflexivity.
  - eapply Forall_impl; [|exact Hrows]. intros a Ha. now apply Z.eqb_eq.
  - intros Hin. apply (next_id_fresh (map Meeting.id (meetings s))).
    apply in_map_iff in Hin. destruct Hin as (a & Ha & Hin).
    unfold foreign_keys_ok in Hfk. rewrite Forall_forall in Hfk.
    rewrite <- Ha. now apply Hfk.
Qed.

Lemma entries_of_rates (rows : list Attendee.t) :
  map Attendee.hourly_rate rows = map snd (entries_of rows).
Proof. unfold entries_of. now rewrite map_map. Qed.

(** X: one whole meeting. On a database with no active meeting, a start at
    [t1] with at least one valid pair followed by a stop at [t2] sends the
    user to the summary of the new meeting and leaves no meeting active;
    the summary of that meeting then shows, whatever the clock reads, the
    duration from [t1] to [t2], as many attendees as there were valid
    pairs, and a cost of that duration in hours times the sum of the valid
    rates. *)
Theorem start_stop_summary
    (t1 t2 now : Z) (names : list string) (rates : list Q) (s : Store) :
  foreign_keys_ok s ->
  first_active s = None ->
  spec_valid_entries (combine names rates) <> [] ->
  let k := next_id (map Meeting.id (meetings s)) in
  let s1 := exec (start_meeting t1 names rates) s in
  let s2 := exec (stop_meeting t2) s1 in
  response (stop_meeting t2) s1
  = RedirectResponse ("/summary/" ++ Py.str_int k) 303
  /\ first_active s2 = None
  /\ exists ctx,
       response (summary k now) s2 = SummaryPage ctx
       /\ ctx_meeting ctx = Meeting.mk k t1 (Some t2) false
       /\ duration_str ctx = format_duration (Py.total_seconds (t2 - t1))
       /\ attendee_count ctx
          = List.length (spec_valid_entries (combine names rates))
       /\ (total_cost ctx
           == spec_total_cost (Py.total_seconds (t2 - t1))
                (map snd (spec_valid_entries (combine names rates))))%Q.
Proof.
  intros Hfk Hnone Hne k s1 s2.
  set (m := Meeting.mk k t1 None true).
  destruct (exec_start_meeting_shape t1 names rates s Hne)
    as (rows & Hs1 & Hent & Hrows).
  fold s1 k m in Hs1, Hrows. cbn [Meeting.id m] in Hrows.
  assert (Hact : first_active s1 = Some m).
  { rewrite Hs1. unfold first_active. cbn [meetings].
    now rewrite find_app_none. }
  assert (Hfresh : ~ In k (map Meeting.id (meetings s)))
    by apply next_id_fresh.
  assert (Hs2 : s2 = mkStore (meetings s ++ [stopped m t2])
                             (attendees s ++ rows)).
  { unfold s2, exec, commits. rewrite (stop_meeting_some t2 s1 m Hact).
    cbn [snd committed last]. rewrite Hs1. cbn [meetings attendees].
    rewrite map_app, map_write_back_absent by exact Hfresh.
    cbn [map]. unfold write_back. cbn [stopped Meeting.id m].
    now rewrite Z.eqb_refl. }
  split; [|split].
  - unfold response. now rewrite (stop_meeting_some t2 s1 m Hact).
  - rewrite Hs2. unfold first_active in *. cbn [meetings].
    now rewrite find_app_none.
  - assert (Hg : get_meeting k (view (open s2)) = Some (stopped m t2)).
    { rewrite Hs2. unfold get_meeting. cbn [view open meetings].
      rewrite find_app_none by now apply find_id_absent.
      cbn. now rewrite Z.eqb_refl. }
    unfold response. rewrite (summary_found k now (open s2) _ Hg).
    eexists. split; [reflexivity|].
    cbn [fst ctx_meeting duration_str attendee_count total_cost view open].
    assert (Hatt : attendees_of (Meeting.id (stopped m t2)) s2 = rows).
    { rewrite Hs2. unfold attendees_of. cbn [attendees stopped Meeting.id m].
      now apply attendees_of_new_meeting. }
    rewrite Hatt, cost_spec, entries_of_rates, Hent.
    repeat split. unfold entries_of in Hent.
    now rewrite <- Hent, length_map.
Qed.

Lemma start_stop_summary_witness :
  exists ctx,
    response (summary 1 77)
      (exec (stop_meeting 5400000000)
         (exec (start_meeting 0 ["ann"; " "]%string [60%Q; 5%Q]) empty_store))
    = SummaryPage ctx
    /\ duration_str ctx = "01:30:00"%string
    /\ attendee_count ctx = 1%nat
    /\ (total_cost ctx == 90)%Q.
Proof.
  destruct (start_stop_summary 0 5400000000 77 ["ann"; " "]%string
              [60%Q; 5%Q] empty_store)
    as (_ & _ & ctx & Hr & _ & Hd & Hn & Hc).
  - constructor.
  - reflexivity.
  - vm_compute. discriminate.
  - exists ctx. split; [exact Hr|]. split; [now rewrite Hd|].
    split; [now rewrite Hn|]. rewrite Hc. reflexivity.
Defined.

(** ** The pages that only read *)

(** X: the three read-only pages agree. None of [root], [setup_page] and
    [dashboard] writes or commits. When a meeting is active, [root] and
    [setup_page] both redirect to [/dashboard] and [dashboard] renders; when
    none is, [dashboard] redirects to [/], [root] redirects to [/setup] and
    [setup_page] renders the form. So a redirect is never answered by a
    redirect back. *)
Theorem navigation_has_no_redirect_loop (timestamp : Z -> Q) (s : Store) :
  (snd (root (open s)) = open s
   /\ snd (setup_page (open s)) = open s
   /\ snd (dashboard timestamp (open s)) = open s)
  /\ ((first_active s <> None
       /\ response root s = RedirectResponse "/dashboard" 307
       /\ response setup_page s = RedirectResponse "/dashboard" 307
       /\ exists ctx, fst (dashboard timestamp (open s)) = DashboardPage ctx)
      \/ (first_active s = None
          /\ response root s = RedirectResponse "/setup" 307
          /\ response setup_page s = TemplateResponse "setup.html"
          /\ fst (dashboard timestamp (open s)) = DashboardRedirect "/" 307)).
Proof.
  unfold response, root, setup_page, dashboard, bind, query, ret, open.
  cbn [view]. destruct (first_active s) as [m|].
  - split; [now repeat split|]. left. repeat split; try discriminate.
    eexists. reflexivity.
  - split; [now repeat split|]. right. now repeat split.
Qed.

Lemma dashboard_found (timestamp : Z -> Q) (s : Store) (m : Meeting.t) :
  first_active s = Some m ->
  fst (dashboard timestamp (open s))
  = DashboardPage
      (mkDashboard m (attendees_of (Meeting.id m) s)
         (timestamp (Meeting.start_time m))
         (Py.sum (map Attendee.hourly_rate (attendees_of (Meeting.id m) s)))).
Proof.
  intros H. unfold dashboard, bind, query, ret, open. cbn [view].
  now rewrite H.
Qed.

(** X: the dashboard after a first start. On a database with no active
    meeting, after a start with at least one valid pair the dashboard shows
    the new meeting, its attendees are the valid pairs in order, and the
    total hourly rate is the sum of the valid rates. *)
Theorem dashboard_after_start_shows_new_meeting
    (timestamp : Z -> Q) (now : Z) (names : list string) (rates : list Q)
    (s : Store) :
  foreign_keys_ok s ->
  first_active s = None ->
  spec_valid_entries (combine names rates) <> [] ->
  exists ctx,
    fst (dashboard timestamp (open (exec (start_meeting now names rates) s)))
    = DashboardPage ctx
    /\ dash_meeting ctx
       = Meeting.mk (next_id (map Meeting.id (meetings s))) now None true
    /\ entries_of (dash_attendees ctx)
       = spec_valid_entries (combine names rates)
    /\ start_time_ts ctx = timestamp now
    /\ (total_hourly_rate ctx
        == fold_right Qplus 0
             (map snd (spec_valid_entries (combine names rates))))%Q.
Proof.
  intros Hfk Hnone Hne.
  set (m := Meeting.mk (next_id (map Meeting.id (meetings s))) now None true).
  destruct (exec_start_meeting_shape now names rates s Hne)
    as (rows & Hs1 & Hent & Hrows).
  fold m in Hs1, Hrows. cbn [Meeting.id m] in Hrows.
  set (s1 := exec (start_meeting now names rates) s) in *.
  assert (Hact : first_active s1 = Some m).
  { rewrite Hs1. unfold first_active. cbn [meetings].
    now rewrite find_app_none. }
  assert (Hatt : attendees_of (Meeting.id m) s1 = rows).
  { rewrite Hs1. unfold attendees_of. cbn [attendees Meeting.id m].
    now apply attendees_of_new_meeting. }
  rewrite (dashboard_found timestamp s1 m Hact), Hatt.
  eexists. split; [reflexivity|].
  cbn [dash_meeting dash_attendees start_time_ts total_hourly_rate].
  repeat split; [exact Hent|].
  now rewrite sum_fold_right, entries_of_rates, Hent.
Qed.

Lemma dashboard_after_start_shows_new_meeting_witness :
  exists ctx,
    fst (dashboard inject_Z
           (open (exec (start_meeting 3 ["ann"; "bob"]%string [10%Q; 20%Q])
                       empty_store)))
    = DashboardPage ctx
    /\ (total_hourly_rate ctx == 30)%Q.
Proof.
  destruct (dashboard_after_start_shows_new_meeting inject_Z 3
              ["ann"; "bob"]%string [10%Q; 20%Q] empty_store)
    as (ctx & Hr & _ & _ & _ & Ht).
  - constructor.
  - reflexivity.
  - vm_compute. discriminate.
  - exists ctx. split; [exact Hr|]. rewrite Ht. reflexivity.
Defined.

(** X: the dashboard after a second start. When a meeting is already
    active, a further successful start does not change what the dashboard
    shows: it still renders the meeting that was active before, with the
    same attendees and the same total rate, not the meeting just created. *)
Theorem dashboard_after_second_start_shows_old_meeting
    (timestamp : Z -> Q) (now : Z) (names : list string) (rates : list Q)
    (s : Store) (m0 : Meeting.t) :
  first_active s = Some m0 ->
  spec_valid_entries (combine names rates) <> [] ->
  fst (dashboard timestamp (open (exec (start_meeting now names rates) s)))
  = fst (dashboard timestamp (open s))
  /\ exists ctx,
       fst (dashboard timestamp (open s)) = DashboardPage ctx
       /\ dash_meeting ctx = m0.
Proof.
  intros H0 Hne.
  destruct (exec_start_meeting_shape now names rates s Hne)
    as (rows & Hs1 & _ & Hrows).
  set (s1 := exec (start_meeting now names rates) s) in *.
  assert (Hact : first_active s1 = Some m0).
  { rewrite Hs1. unfold first_active in *. cbn [meetings].
    now apply find_app_some. }
  assert (Hatt : attendees_of (Meeting.id m0) s1
                 = attendees_of (Meeting.id m0) s).
  { rewrite Hs1. unfold attendees_of. cbn [attendees].
    rewrite filter_app, (attendees_of_absent rows), app_nil_r; [reflexivity|].
    intros Hin. apply in_map_iff in Hin. destruct Hin as (a & Ha & Hin).
    rewrite Forall_forall in Hrows. rewrite (Hrows a Hin) in Ha.
    cbn [Meeting.id] in Ha.
    apply find_some in H0. destruct H0 as [H0 _].
    apply (in_map Meeting.id) in H0. apply next_id_above in H0. lia. }
  rewrite (dashboard_found timestamp s1 m0 Hact), Hatt.
  rewrite (dashboard_found timestamp s m0 H0).
  split; [reflexivity|]. eexists. split; reflexivity.
Qed.

Lemma dashboard_after_second_start_shows_old_meeting_witness :
  fst (dashboard inject_Z
         (open (exec (start_meeting 9 ["bob"]%string [60%Q])
                  (mkStore [Meeting.mk 1 0 None true]
                           [Attendee.mk 1 1 "ann" 50%Q]))))
  = fst (dashboard inject_Z
           (open (mkStore [Meeting.mk 1 0 None true]
                          [Attendee.mk 1 1 "ann" 50%Q]))).
Proof.
  apply (dashboard_after_second_start_shows_old_meeting inject_Z 9
           ["bob"]%string [60%Q]
           (mkStore [Meeting.mk 1 0 None true] [Attendee.mk 1 1 "ann" 50%Q])
           (Meeting.mk 1 0 None true)).
  - reflexivity.
  - vm_compute. discriminate.
Defined.

(** ** The duration string and the cost, for every duration *)

(** X: fractions of a second are dropped. For every duration, negative ones
    included, the string depends only on the whole number of seconds below
    the duration (its floor): the minutes and the seconds are that number
    reduced modulo 3600 and 60, always within 0..59, and the hours are its
    floored quotient by 3600, which is negative for a negative duration. *)
Theorem format_duration_uses_whole_seconds (ds : Q) :
  format_duration ds = format_duration (inject_Z (Qfloor ds))
  /\ format_duration ds
     = (Py.format_02d (Qfloor ds / 3600) ++ ":" ++
        pad2 ((Qfloor ds / 60) mod 60) ++ ":" ++
        pad2 (Qfloor ds mod 60))%string
  /\ 0 <= (Qfloor ds / 60) mod 60 < 60
  /\ 0 <= Qfloor ds mod 60 < 60
  /\ ((ds < 0)%Q <-> Qfloor ds / 3600 < 0).
Proof.
  assert (Hm : 0 <= (Qfloor ds / 60) mod 60 < 60)
    by (apply Z.mod_pos_bound; lia).
  assert (Hs : 0 <= Qfloor ds mod 60 < 60) by (apply Z.mod_pos_bound; lia).
  split; [|split; [|split; [exact Hm|split; [exact Hs|]]]].
  - rewrite !divmod_parts. now rewrite Qfloor_Z.
  - rewrite divmod_parts.
    now rewrite (format_02d_pad2 ((Qfloor ds / 60) mod 60)),
                (format_02d_pad2 (Qfloor ds mod 60)) by lia.
  - split.
    + intros Hneg. apply Z.div_lt_upper_bound; [lia|].
      assert (Hlt : Qfloor ds < 0); [|lia].
      destruct (Z.lt_ge_cases (Qfloor ds) 0) as [H|H]; [exact H|exfalso].
      apply (Qlt_not_le _ _ Hneg).
      apply Qle_trans with (inject_Z (Qfloor ds)); [|apply Qfloor_le].
      change 0%Q with (inject_Z 0). now rewrite <- Zle_Qle.
    + intros Hneg. destruct (Qlt_le_dec ds 0) as [H|H]; [exact H|exfalso].
      assert (0 <= Qfloor ds).
      { change 0 with (Qfloor 0). now apply Qfloor_resp_le. }
      assert (0 <= Qfloor ds / 3600) by (apply Z.div_pos; lia). lia.
Qed.

Lemma fold_right_Qplus_nonneg (l : list Q) :
  Forall (fun r => (0 <= r)%Q) l -> (0 <= fold_right Qplus 0 l)%Q.
Proof.
  induction 1 as [|r l Hr _ IH]; simpl; [apply Qle_refl|].
  change 0%Q with (0 + 0)%Q. now apply Qplus_le_compat.
Qed.

Lemma total_seconds_mono (a b : Z) :
  a <= b -> (Py.total_seconds a <= Py.total_seconds b)%Q.
Proof. intros H. unfold Py.total_seconds, Qle. simpl. lia. Qed.

Lemma cost_mono (ds1 ds2 : Q) (rates : list Q) :
  Forall (fun r => (0 <= r)%Q) rates ->
  (ds1 <= ds2)%Q -> (cost ds1 rates <= cost ds2 rates)%Q.
Proof.
  intros Hr Hd. rewrite !cost_spec. unfold spec_total_cost.
  apply Qmult_le_compat_r; [|now apply fold_right_Qplus_nonneg].
  unfold Qdiv. apply Qmult_le_compat_r; [exact Hd|]. easy.
Qed.

(** X: the cost never goes down as the clock advances. After any sequence
    of requests served from the empty database, for every meeting whose
    start lies strictly before its end at the earlier clock reading (its
    end time when set, otherwise that reading), the cost on the summary
    page computed at a later clock reading is at least the cost computed
    at the earlier one, and the whole page is the same once the meeting has
    an end time. Nothing is said of a reading at which no time has
    elapsed. *)
Theorem served_summary_cost_is_monotone
    (rqs : list Request) (meeting_id now1 now2 : Z) (m : Meeting.t) :
  let s := serve rqs empty_store in
  get_meeting meeting_id s = Some m ->
  Meeting.start_time m < end_or_now m now1 ->
  now1 <= now2 ->
  exists ctx1 ctx2,
    response (summary meeting_id now1) s = SummaryPage ctx1
    /\ response (summary meeting_id now2) s = SummaryPage ctx2
    /\ (total_cost ctx1 <= total_cost ctx2)%Q
    /\ (Meeting.end_time m <> None -> ctx1 = ctx2).
Proof.
  intros s Hm _ Hnow. unfold response.
  rewrite !(summary_found meeting_id _ (open s) m Hm).
  eexists. eexists. split; [reflexivity|]. split; [reflexivity|].
  cbn [total_cost view open]. split.
  - apply cost_mono.
    + apply Forall_forall. intros r Hr. apply in_map_iff in Hr.
      destruct Hr as (a & <- & Ha). unfold attendees_of in Ha.
      apply filter_In in Ha. destruct Ha as [Ha _].
      pose proof (serve_attendees_valid rqs) as Hv.
      rewrite Forall_forall in Hv. specialize (Hv a Ha).
      unfold valid in Hv. apply andb_true_iff in Hv.
      now apply Qle_bool_iff.
    + unfold duration_seconds. apply total_seconds_mono.
      unfold end_or_now. destruct (Meeting.end_time m); lia.
  - intros Hend. unfold duration_seconds, end_or_now.
    destruct (Meeting.end_time m); [reflexivity|congruence].
Qed.

Lemma served_summary_cost_is_monotone_witness :
  exists ctx1 ctx2,
    response (summary 1 10)
             (serve [Start 0 ["ann"]%string [50%Q]] empty_store)
    = SummaryPage ctx1
    /\ response (summary 1 20)
                (serve [Start 0 ["ann"]%string [50%Q]] empty_store)
       = SummaryPage ctx2
    /\ (total_cost ctx1 <= total_cost ctx2)%Q.
Proof.
  destruct (served_summary_cost_is_monotone
              [Start 0 ["ann"]%string [50%Q]] 1 10 20
              (Meeting.mk 1 0 None true))
    as (ctx1 & ctx2 & H1 & H2 & Hc & _).
  - reflexivity.
  - cbn. lia.
  - lia.
  - exists ctx1, ctx2. repeat split; assumption.
Defined.

(** ** Blank names *)

Lemma lstrip_empty_iff (s : string) :
  Py.lstrip s = EmptyString <-> all_space s = true.
Proof.
  induction s as [|c s IH]; simpl; [easy|].
  destruct (Py.isspace c); simpl; [exact IH|]. split; discriminate.
Qed.

Lemma lstrip_head (s : string) (c : ascii) (rest : string) :
  Py.lstrip s = String c rest -> Py.isspace c = false.
Proof.
  induction s as [|d s IH]; simpl; [discriminate|].
  destruct (Py.isspace d) eqn:Hd; [exact IH|]. now intros [= <- _].
Qed.

Lemma rstrip_head_kept (c : ascii) (rest : string) :
  Py.isspace c = false -> Py.rstrip (String c rest) <> EmptyString.
Proof.
  intros Hc. simpl. destruct (Py.rstrip rest); [now rewrite Hc|discriminate].
Qed.

(** X: which names are blank. The name test of [start_meeting] fails
    exactly for the names made only of white space characters (the empty
    name included); a name with any other character passes it, wherever
    that character stands. *)
Theorem name_is_blank_iff_all_space (n : string) :
  Py.truthy (Py.strip n) = false <-> all_space n = true.
Proof.
  unfold Py.strip. rewrite <- lstrip_empty_iff.
  destruct (Py.lstrip n) as [|c rest] eqn:Hl.
  - simpl. tauto.
  - split; [|discriminate]. intros H. exfalso.
    apply (rstrip_head_kept c rest (lstrip_head n c rest Hl)).
    now destruct (Py.rstrip (String c rest)).
Qed.

(** ** Ownership of attendee rows *)

(** X: every attendee belongs to a meeting. After any sequence of requests
    served from the empty database, each attendee row refers to the key of
    a meeting of the database, and [summary] on that key renders a page
    that counts the row among the attendees. *)
Theorem served_attendee_belongs_to_meeting
    (rqs : list Request) (a : Attendee.t) (now : Z) :
  let s := serve rqs empty_store in
  In a (attendees s) ->
  In a (attendees_of (Attendee.meeting_id a) s)
  /\ exists ctx,
       response (summary (Attendee.meeting_id a) now) s = SummaryPage ctx
       /\ Meeting.id (ctx_meeting ctx) = Attendee.meeting_id a
       /\ (1 <= attendee_count ctx)%nat.
Proof.
  intros s Ha.
  assert (Hof : In a (attendees_of (Attendee.meeting_id a) s)).
  { unfold attendees_of. apply filter_In. split; [exact Ha|].
    apply Z.eqb_refl. }
  split; [exact Hof|].
  pose proof (reachable_foreign_keys_ok rqs) as Hfk. fold s in Hfk.
  unfold foreign_keys_ok in Hfk. rewrite Forall_forall in Hfk.
  specialize (Hfk a Ha).
  destruct (get_meeting (Attendee.meeting_id a) s) as [m|] eqn:Hm.
  - assert (Hid : Meeting.id m = Attendee.meeting_id a).
    { unfold get_meeting in Hm. apply find_some in Hm.
      now apply Z.eqb_eq. }
    unfold response.
    rewrite (summary_found _ now (open s) m Hm).
    eexists. split; [reflexivity|].
    cbn [fst ctx_meeting attendee_count view open]. split; [exact Hid|].
    rewrite Hid. destruct (attendees_of (Attendee.meeting_id a) s);
      [contradiction|cbn; lia].
  - exfalso. now apply (get_meeting_none_iff (Attendee.meeting_id a) s).
Qed.

Lemma served_attendee_belongs_to_meeting_witness :
  In (Attendee.mk 1 1 "ann" 50%Q)
     (attendees_of 1 (serve [Start 0 ["ann"]%string [50%Q]] empty_store)).
Proof.
  apply (served_attendee_belongs_to_meeting
           [Start 0 ["ann"]%string [50%Q]] (Attendee.mk 1 1 "ann" 50%Q) 0).
  vm_compute. left. reflexivity.
Defined.
